(** * open-grin-pool: the stratum relay

    A shallow embedding of the stratum server of open-grin-pool
    ([handleMethod], [callStatusPerInterval], [handleConn]) and the
    properties of its connection handling.

    The three goroutines of one connection (the read loop of [handleConn],
    the push callback given to [registerHandler], the heartbeat tasks) are
    modelled as an interleaving of atomic events; every call that leaves the
    connection (database, sockets, logger, goroutine start) is recorded, in
    order, in a trace of effects. *)

From Stdlib Require Import ZArith Ascii String List Bool Lia.
From stdpp Require Import base gmap strings pretty.
Import ListNotations.

#[local] Set Warnings "-register-all".
#[local] Open Scope string_scope.
#[local] Open Scope list_scope.

(** ** Go's [strings] functions used by the server

    Go strings are byte strings; a [string] here is the sequence of its
    bytes. *)
Module GoStrings.

(** Remainder of [s] after the prefix [p], when [s] starts with [p]. *)
Fixpoint stripPrefix (p s : string) : option string :=
  match p, s with
  | EmptyString, _ => Some s
  | String a p', String b s' =>
      if Ascii.eqb a b then stripPrefix p' s' else None
  | String _ _, EmptyString => None
  end.

(** [strings.Contains(s, substr)]. *)
Fixpoint Contains (s substr : string) : bool :=
  match stripPrefix substr s with
  | Some _ => true
  | None =>
      match s with
      | EmptyString => false
      | String _ s' => Contains s' substr
      end
  end.

(** Membership of a byte in an ASCII cutset. *)
Fixpoint inCutset (c : ascii) (cutset : string) : bool :=
  match cutset with
  | EmptyString => false
  | String d cutset' => Ascii.eqb c d || inCutset c cutset'
  end.

Fixpoint dropWhileIn (cutset : string) (l : list ascii) : list ascii :=
  match l with
  | [] => []
  | c :: l' => if inCutset c cutset then dropWhileIn cutset l' else l
  end.

Definition TrimLeft (s cutset : string) : string :=
  string_of_list_ascii (dropWhileIn cutset (list_ascii_of_string s)).

Definition TrimRight (s cutset : string) : string :=
  string_of_list_ascii
    (List.rev (dropWhileIn cutset (List.rev (list_ascii_of_string s)))).

(** [strings.Trim(s, cutset)] for a cutset of ASCII characters: Go builds
    the ASCII set of the cutset and trims bytes, first on the right and then
    on the left. *)
Definition Trim (s cutset : string) : string :=
  TrimLeft (TrimRight s cutset) cutset.

Definition bytes (l : list nat) : string :=
  string_of_list_ascii (List.map ascii_of_nat l).

(** The UTF-8 encodings of the code points for which [unicode.IsSpace]
    holds: tab, LF, VT, FF, CR, space, U+0085, U+00A0, U+1680,
    U+2000..U+200A, U+2028, U+2029, U+202F, U+205F, U+3000. *)
Definition spaceEncodings : list string :=
  List.map bytes
    [ [9]; [10]; [11]; [12]; [13]; [32];
      [194; 133]; [194; 160]; [225; 154; 128];
      [226; 128; 128]; [226; 128; 129]; [226; 128; 130]; [226; 128; 131];
      [226; 128; 132]; [226; 128; 133]; [226; 128; 134]; [226; 128; 135];
      [226; 128; 136]; [226; 128; 137]; [226; 128; 138];
      [226; 128; 168]; [226; 128; 169]; [226; 128; 175];
      [226; 129; 159]; [227; 128; 128] ].

Fixpoint stripAny (table : list string) (s : string) : option string :=
  match table with
  | [] => None
  | p :: table' =>
      match stripPrefix p s with
      | Some s' => Some s'
      | None => stripAny table' s
      end
  end.

Fixpoint trimLeftAny (fuel : nat) (table : list string) (s : string) : string :=
  match fuel with
  | O => s
  | S fuel' =>
      match stripAny table s with
      | Some s' => trimLeftAny fuel' table s'
      | None => s
      end
  end.

Definition revString (s : string) : string :=
  string_of_list_ascii (List.rev (list_ascii_of_string s)).

(** [strings.TrimSpace(s)]: all leading and all trailing white space
    removed, white space being the code points of [unicode.IsSpace]. A
    code point is removed exactly when its encoding starts (ends) the
    string, since only the shortest encoding of a code point decodes to
    it. *)
Definition TrimSpace (s : string) : string :=
  let l := trimLeftAny (String.length s) spaceEncodings s in
  revString
    (trimLeftAny (String.length l) (List.map revString spaceEncodings)
       (revString l)).

End GoStrings.
Export GoStrings.

(** [strconv.FormatInt(n, 10)]. *)
Definition FormatInt10 (n : Z) : string := pretty n.

(** ** Data model *)

(** What [encoding/json] stores in an [interface{}]: nil, bool, float64
    (kept as its literal, never inspected here), string, slice, map. *)
Inductive jsonValue : Type :=
| JNull
| JBool (b : bool)
| JNumber (literal : string)
| JString (s : string)
| JArray (l : list jsonValue)
| JObject (m : gmap string jsonValue).

(** A [map[string]interface{}] field: [None] is the nil map. *)
Abbreviation jsonMap := (option (gmap string jsonValue)).

(** [m[k]]: indexing a nil map gives the zero value, a nil interface. *)
Definition mapIndex (m : jsonMap) (k : string) : jsonValue :=
  match m with
  | Some m' => default JNull (m' !! k)
  | None => JNull
  end.

(** [v.(string)] in its two-result form. *)
Definition assertString (v : jsonValue) : string * bool :=
  match v with
  | JString s => (s, true)
  | _ => ("", false)
  end.

(** [v.(map[string]interface{})] in its two-result form. *)
Definition assertMap (v : jsonValue) : jsonMap * bool :=
  match v with
  | JObject m => (Some m, true)
  | _ => (None, false)
  end.

Record stratumRequest := {
  ID : string;
  JsonRpc : string;
  Method : string;
  Params : jsonMap
}.

Record stratumResponse := {
  resID : string;
  resJsonRpc : string;
  resMethod : string;
  Result : jsonValue;
  Error : jsonMap
}.

(** The [ctx] field of the Go struct is never assigned or read. *)
Record minerSession := {
  login : string;
  agent : string;
  difficulty : Z
}.

Definition hasNotLoggedIn (ms : minerSession) : bool :=
  String.eqb (login ms) "".

(** The part of [config] the stratum server reads. *)
Record config := {
  OmitAgentStatus : list string;
  Diff : Z
}.

(** Answer of [db.verifyMiner]. *)
Inductive verifyResult := correctPassword | wrongPassword | noPassword.

(** A Go [error] as the read loop tells them apart: a [*net.OpError]
    with the text of its inner error, or any other error. *)
Inductive goError :=
| OpError (innerText : string)
| OtherError (text : string).

(** [syscall.ECONNRESET.Error()]. *)
Definition ECONNRESET_Error : string := "connection reset by peer".

(** ** Effects *)

Inductive dbCall :=
| registerMiner (login pass contact : string)
| putShare (login agent : string) (difficulty : Z)
| putBlockHash (blockHash : string)
| setMinerAgentStatus (login agent : string) (difficulty : Z) (status : jsonMap).

Inductive logLevel := INFO | WARNING | ERROR.

Inductive logArg :=
| LStr (s : string)
| LErr (e : goError)
| LMap (m : jsonMap)
| LRemoteAddr.

Inductive effect :=
| Log (lvl : logLevel) (args : list logArg)
| Db (c : dbCall)
| ConnWrite (data : string)
| ConnEncode (sr : string)
| NodeEncode (jsonRaw : string)
| NodeEncodeRequest (req : stratumRequest)
| GoCallStatusPerInterval
| NodeClose
| CtxCancel
| ConnClose.

(** The database calls of a trace, in order. *)
Fixpoint dbCalls (t : list effect) : list dbCall :=
  match t with
  | [] => []
  | Db c :: t' => c :: dbCalls t'
  | _ :: t' => dbCalls t'
  end.

(** ** [handleMethod] *)

Definition handleMethod (ms : minerSession) (res : stratumResponse) : list effect :=
  if String.eqb (resMethod res) "status" then
    if String.eqb (login ms) "" then
      [Log WARNING [LStr "recv status detail before login"]]
    else
      let result := fst (assertMap (Result res)) in
      [Db (setMinerAgentStatus (login ms) (agent ms) (difficulty ms) result)]
  else if String.eqb (resMethod res) "submit" then
    match Error res with
    | Some e =>
        [Log WARNING [LStr (login ms); LStr "'s share has err: "; LMap (Some e)]]
    | None =>
        let '(detail, ok) := assertString (Result res) in
        Log INFO [LStr (login ms); LStr " has submit a "; LStr detail; LStr " share"]
        :: (if ok then
              Db (putShare (login ms) (agent ms) (difficulty ms))
              :: (if Contains detail "block" then
                    let blockHash := Trim detail "block - " in
                    [Db (putBlockHash blockHash);
                     Log WARNING [LStr "block "; LStr blockHash;
                                  LStr " has been found by "; LStr (login ms)]]
                  else [])
            else [])
    end
  else [].

(** ** [callStatusPerInterval] *)

Definition statusReq : stratumRequest :=
  {| ID := "0"; JsonRpc := "2.0"; Method := "status"; Params := None |}.

Inductive loopCtl := Continue | Return.

(** The case the [select] of the heartbeat loop takes: a tick of the
    10-second ticker (with the result of [enc.Encode(statusReq)]), or
    [ctx.Done()]. *)
Inductive selectCase :=
| Tick (encodeErr : option goError)
| Done.

Definition logIfErr (err : option goError) : list effect :=
  match err with
  | Some e => [Log ERROR [LErr e]]
  | None => []
  end.

(** One iteration of the [for { select { ... } }] loop. *)
Definition callStatusPerInterval_iter (sel : selectCase) : loopCtl * list effect :=
  match sel with
  | Tick err => (Continue, NodeEncodeRequest statusReq :: logIfErr err)
  | Done => (Return, [])
  end.

(** The whole task, run on the cases its [select] takes one after the
    other; the second component tells whether it has returned. *)
Fixpoint callStatusPerInterval (sels : list selectCase) : list effect * bool :=
  match sels with
  | [] => ([], false)
  | sel :: sels' =>
      match callStatusPerInterval_iter sel with
      | (Return, effs) => (effs, true)
      | (Continue, effs) =>
          let '(effs', returned) := callStatusPerInterval sels' in
          (effs ++ effs', returned)
      end
  end.

(** ** [handleConn] *)

Definition q : string := String (ascii_of_nat 34) "".
Definition nl : string := String (ascii_of_nat 10) "".

(** The bytes [handleConn] writes to the miner on a wrong password (a raw
    string literal of nine lines). *)
Definition loginErrorReply : string :=
  "{  " +:+ nl +:+
  "   " +:+ q +:+ "id" +:+ q +:+ ":" +:+ q +:+ "5" +:+ q +:+ "," +:+ nl +:+
  "   " +:+ q +:+ "jsonrpc" +:+ q +:+ ":" +:+ q +:+ "2.0" +:+ q +:+ "," +:+ nl +:+
  "   " +:+ q +:+ "method" +:+ q +:+ ":" +:+ q +:+ "login" +:+ q +:+ "," +:+ nl +:+
  "   " +:+ q +:+ "error" +:+ q +:+ ":{  " +:+ nl +:+
  "      " +:+ q +:+ "code" +:+ q +:+ ":-32500," +:+ nl +:+
  "      " +:+ q +:+ "message" +:+ q +:+ ":" +:+ q +:+ "login incorrect" +:+ q +:+ nl +:+
  "   }" +:+ nl +:+
  "}".

(** The login error reply as the specification prints it (section 6). *)
Definition loginErrorReply_spec : string :=
  "{" +:+ q +:+ "id" +:+ q +:+ ":" +:+ q +:+ "5" +:+ q +:+ "," +:+
  q +:+ "jsonrpc" +:+ q +:+ ":" +:+ q +:+ "2.0" +:+ q +:+ "," +:+
  q +:+ "method" +:+ q +:+ ":" +:+ q +:+ "login" +:+ q +:+ "," +:+
  q +:+ "error" +:+ q +:+ ":{" +:+ q +:+ "code" +:+ q +:+ ":-32500," +:+
  q +:+ "message" +:+ q +:+ ":" +:+ q +:+ "login incorrect" +:+ q +:+ "}}".

(** A JSON text without the white space between its tokens (for texts
    whose strings hold no escaped quote). *)
Fixpoint dropInsignificantSpace (inString : bool) (s : string) : string :=
  match s with
  | EmptyString => EmptyString
  | String c s' =>
      if Ascii.eqb c (ascii_of_nat 34) then
        String c (dropInsignificantSpace (negb inString) s')
      else if negb inString && inCutset c (bytes [32; 9; 10; 13]) then
        dropInsignificantSpace inString s'
      else String c (dropInsignificantSpace inString s')
  end.

(** What one iteration of the read loop gets from [dec.Decode(&jsonRaw)].
    [jsonRaw] is declared anew in every iteration and [Decode] assigns it
    only when it succeeds, so after an error it is empty. *)
Inductive decodeResult :=
| Decoded (jsonRaw : string)
| DecodeFailed (err : goError).

(** The answers the iteration gets from outside the connection handler,
    each used only where the code asks for it. *)
Record frameEnv := {
  (** [json.Unmarshal(jsonRaw, &clientReq)]: [None] when it fails *)
  unmarshalled : option stratumRequest;
  (** [ss.db.verifyMiner(login, pass)] *)
  verdict : verifyResult;
  (** [rand.Int63()] *)
  rand63 : Z
}.

(** The variables of [handleConn] that live across iterations. *)
Record connState := {
  session : minerSession;
  loginVar : string
}.

(** The loop over [conf.StratumServer.OmitAgentStatus]. *)
Fixpoint requireCallStatus (agent1 : string) (omit : list string) : bool :=
  match omit with
  | [] => true
  | omitSubstr :: omit' =>
      if Contains agent1 omitSubstr then false
      else requireCallStatus agent1 omit'
  end.

(** The agent a login request commits. *)
Definition loginAgent (clientReq : stratumRequest) (env : frameEnv) : string :=
  let agent1 := TrimSpace (fst (assertString (mapIndex (Params clientReq) "agent"))) in
  if String.eqb agent1 "" then "NoNameMiner" +:+ FormatInt10 (rand63 env)
  else agent1.

(** [case "login":] of the switch on [clientReq.Method]. *)
Definition handleLogin (conf : config) (st : connState) (jsonRaw : string)
    (clientReq : stratumRequest) (env : frameEnv) : connState * list effect :=
  let login1 := TrimSpace (fst (assertString (mapIndex (Params clientReq) "login"))) in
  let pass1 := TrimSpace (fst (assertString (mapIndex (Params clientReq) "pass"))) in
  let agent1 := loginAgent clientReq env in
  let '(login2, effs) :=
    match verdict env with
    | wrongPassword =>
        ("", [Log WARNING [LStr login1; LStr " has failed to login"];
              ConnWrite loginErrorReply])
    | noPassword =>
        (login1, [Db (registerMiner login1 pass1 "");
                  Log INFO [LStr login1; LStr " has registered in"]])
    | correctPassword => (login1, [])
    end in
  let session1 :=
    {| login := login2; agent := agent1; difficulty := difficulty (session st) |} in
  ({| session := session1; loginVar := login2 |},
   effs
   ++ (if requireCallStatus agent1 (OmitAgentStatus conf)
       then [GoCallStatusPerInterval] else [])
   ++ [Log INFO [LStr (login session1); LStr "'s "; LStr agent1; LStr " has logged in"];
       NodeEncode jsonRaw]).

(** One iteration of the read loop of [handleConn]. *)
Definition handleFrame (conf : config) (st : connState) (d : decodeResult)
    (env : frameEnv) : loopCtl * connState * list effect :=
  let '(err, jsonRaw) :=
    match d with
    | Decoded raw => (None, raw)
    | DecodeFailed e => (Some e, "")
    end in
  let afterErr : option (list effect) :=
    match err with
    | Some (OpError innerText) =>
        if String.eqb innerText ECONNRESET_Error then None else Some []
    | Some e => Some [Log ERROR [LErr e]]
    | None => Some []
    end in
  match afterErr with
  | None => (Return, st, [])
  | Some effs0 =>
      if Nat.eqb (String.length jsonRaw) 0 then (Return, st, effs0)
      else
        match unmarshalled env with
        | None => (Continue, st, effs0)
        | Some clientReq =>
            let effs1 :=
              effs0 ++ [Log INFO [LRemoteAddr; LStr " sends a "; LStr (Method clientReq);
                                  LStr " request:"; LStr jsonRaw]] in
            if String.eqb (Method clientReq) "login" then
              let '(st', effs2) := handleLogin conf st jsonRaw clientReq env in
              (Continue, st', effs1 ++ effs2)
            else
              (Continue, st,
               effs1
               ++ (if hasNotLoggedIn (session st)
                   then [Log WARNING [LStr (loginVar st); LStr " has not logged in"]]
                   else [])
               ++ [NodeEncode jsonRaw])
        end
  end.

(** The callback [handleConn] registers for the messages the node pushes:
    [encodeErr] is the result of encoding [sr] to the miner, [res] what
    [json.Unmarshal(sr, &res)] leaves in [res] (its error is dropped). *)
Definition pushHandler (ms : minerSession) (sr : string)
    (encodeErr : option goError) (res : stratumResponse) : list effect :=
  ConnEncode sr :: logIfErr encodeErr ++ handleMethod ms res.

(** ** One connection

    The goroutines of a connection, interleaved. [running] holds until
    [handleConn] returns; its deferred calls then close the node client,
    cancel [ctx] and close the miner socket. [heartbeats] counts the
    goroutines that run [callStatusPerInterval] and have not returned. *)
Record conn := {
  vars : connState;
  running : bool;
  heartbeats : nat;
  trace : list effect
}.

(** The [go callStatusPerInterval(ctx, nc)] statements of a trace. *)
Fixpoint goCount (t : list effect) : nat :=
  match t with
  | [] => 0
  | GoCallStatusPerInterval :: t' => S (goCount t')
  | _ :: t' => goCount t'
  end.

(** The requests a trace sends to the node with a request encoder, that
    is, the heartbeats. *)
Fixpoint statusSends (t : list effect) : list stratumRequest :=
  match t with
  | [] => []
  | NodeEncodeRequest req :: t' => req :: statusSends t'
  | _ :: t' => statusSends t'
  end.

(** The frames a trace relays to the node. *)
Fixpoint relayed (t : list effect) : list string :=
  match t with
  | [] => []
  | NodeEncode jsonRaw :: t' => jsonRaw :: relayed t'
  | _ :: t' => relayed t'
  end.

(** The byte strings a trace writes to the miner with [conn.Write]. *)
Fixpoint connWrites (t : list effect) : list string :=
  match t with
  | [] => []
  | ConnWrite data :: t' => data :: connWrites t'
  | _ :: t' => connWrites t'
  end.

(** The deferred calls of [handleConn], in the order they run. *)
Definition deferred : list effect := [NodeClose; CtxCancel; ConnClose].

(** [handleConn] up to its read loop. *)
Definition newConn (conf : config) : conn :=
  {| vars := {| session := {| login := ""; agent := ""; difficulty := Diff conf |};
                loginVar := "" |};
     running := true;
     heartbeats := 0;
     trace := [Log INFO [LStr "new conn from "; LRemoteAddr]] |}.

Inductive event :=
(** the read loop runs one iteration *)
| MinerFrame (d : decodeResult) (env : frameEnv)
(** the node client calls the registered callback *)
| NodePush (sr : string) (encodeErr : option goError) (res : stratumResponse)
(** the [select] of one heartbeat goroutine takes a case *)
| Heartbeat (sel : selectCase).

Definition step (conf : config) (c : conn) (ev : event) : conn :=
  match ev with
  | MinerFrame d env =>
      if running c then
        let '(ctl, st, effs) := handleFrame conf (vars c) d env in
        match ctl with
        | Continue =>
            {| vars := st; running := true;
               heartbeats := heartbeats c + goCount effs;
               trace := trace c ++ effs |}
        | Return =>
            {| vars := st; running := false;
               heartbeats := heartbeats c + goCount effs;
               trace := trace c ++ effs ++ deferred |}
        end
      else c
  | NodePush sr encodeErr res =>
      {| vars := vars c; running := running c; heartbeats := heartbeats c;
         trace := trace c ++ pushHandler (session (vars c)) sr encodeErr res |}
  | Heartbeat sel =>
      match heartbeats c, sel with
      | O, _ => c
      | S n, Done =>
          (* [ctx.Done()] is ready only once [ctx] is cancelled *)
          if running c then c
          else {| vars := vars c; running := false; heartbeats := n;
                  trace := trace c |}
      | S _, Tick _ =>
          {| vars := vars c; running := running c; heartbeats := heartbeats c;
             trace := trace c ++ snd (callStatusPerInterval_iter sel) |}
      end
  end.

Definition run (conf : config) (c : conn) (evs : list event) : conn :=
  fold_left (step conf) evs c.

(** The login request of an event, when the read loop dispatches it to
    [case "login":]. *)
Definition loginRequestOf (ev : event) : option (stratumRequest * frameEnv) :=
  match ev with
  | MinerFrame (Decoded jsonRaw) env =>
      if Nat.eqb (String.length jsonRaw) 0 then None
      else
        match unmarshalled env with
        | Some clientReq =>
            if String.eqb (Method clientReq) "login" then Some (clientReq, env)
            else None
        | None => None
        end
  | _ => None
  end.

(** The login requests of an event list that start a heartbeat task. *)
Definition startsHeartbeat (conf : config) (ev : event) : bool :=
  match loginRequestOf ev with
  | Some (clientReq, env) =>
      requireCallStatus (loginAgent clientReq env) (OmitAgentStatus conf)
  | None => false
  end.

(** The value a login request commits to [session.login]. *)
Definition committedLogin (clientReq : stratumRequest) (env : frameEnv) : string :=
  match verdict env with
  | wrongPassword => ""
  | _ => TrimSpace (fst (assertString (mapIndex (Params clientReq) "login")))
  end.

Definition allInCutset (cutset s : string) : bool :=
  forallb (fun c => inCutset c cutset) (list_ascii_of_string s).

Definition firstByte (s : string) : option ascii :=
  match s with
  | EmptyString => None
  | String c _ => Some c
  end.

Definition lastByte (s : string) : option ascii :=
  firstByte (revString s).

(** The block hashes a trace records. *)
Fixpoint blockHashes (t : list effect) : list string :=
  match t with
  | [] => []
  | Db (putBlockHash h) :: t' => h :: blockHashes t'
  | _ :: t' => blockHashes t'
  end.

(** The pushed messages a trace forwards to the miner. *)
Fixpoint connEncodes (t : list effect) : list string :=
  match t with
  | [] => []
  | ConnEncode sr :: t' => sr :: connEncodes t'
  | _ :: t' => connEncodes t'
  end.

(** The [cancel()] calls of a trace. *)
Fixpoint cancelCount (t : list effect) : nat :=
  match t with
  | [] => 0
  | CtxCancel :: t' => S (cancelCount t')
  | _ :: t' => cancelCount t'
  end.

(** The frame of an event, when it is read whole and parses as a
    request. *)
Definition relayedFrame (ev : event) : option string :=
  match ev with
  | MinerFrame (Decoded jsonRaw) env =>
      if Nat.eqb (String.length jsonRaw) 0 then None
      else
        match unmarshalled env with
        | Some _ => Some jsonRaw
        | None => None
        end
  | _ => None
  end.

(** The reads on which the read loop returns: a failed read and an empty
    frame. *)
Definition endsLoop (ev : event) : bool :=
  match ev with
  | MinerFrame (Decoded jsonRaw) _ => Nat.eqb (String.length jsonRaw) 0
  | MinerFrame (DecodeFailed _) _ => true
  | _ => false
  end.

(** The events up to the first read that ends the loop. *)
Fixpoint untilReturn (evs : list event) : list event :=
  match evs with
  | [] => []
  | ev :: evs' => if endsLoop ev then [] else ev :: untilReturn evs'
  end.

(** An optional element as a list. *)
Definition optList {A} (o : option A) : list A :=
  match o with
  | Some a => [a]
  | None => []
  end.

(** The message of a push event. *)
Definition pushedMessage (ev : event) : option string :=
  match ev with
  | NodePush sr _ _ => Some sr
  | _ => None
  end.

(** A database call made with a difficulty carries [d]. *)
Definition carriesDifficulty (d : Z) (c : dbCall) : Prop :=
  match c with
  | putShare _ _ d' => d' = d
  | setMinerAgentStatus _ _ d' _ => d' = d
  | _ => True
  end.

(** The login requests that [verifyMiner] answers with [wrongPassword]. *)
Definition rejectedLogin (ev : event) : bool :=
  match loginRequestOf ev with
  | Some (_, env) =>
      match verdict env with
      | wrongPassword => true
      | _ => false
      end
  | None => false
  end.

(** ** What the node client's encoder writes for a relayed frame

    [nc.enc] belongs to the node client, which is declared outside this
    file; it is a [json.Encoder] on the node connection, like the encoder
    [callStatusPerInterval] makes with [json.NewEncoder(nc.c)]. [Encode]
    of a [json.RawMessage] compacts the message, with the HTML escapes the
    encoder has on by default, appends a newline and hands the result to
    the connection in one write. The frames relayed are the valid JSON
    texts [dec.Decode] returned; the scanner below follows them. *)
Inductive scanState := OutsideString | InString | InStringEsc.

Definition dquote : ascii := ascii_of_nat 34.
Definition backslash : ascii := ascii_of_nat 92.

(** The scanner of [encoding/json], as far as strings are concerned. *)
Definition scanStep (st : scanState) (c : ascii) : scanState :=
  match st with
  | OutsideString => if Ascii.eqb c dquote then InString else OutsideString
  | InString =>
      if Ascii.eqb c dquote then OutsideString
      else if Ascii.eqb c backslash then InStringEsc
      else InString
  | InStringEsc => InString
  end.

(** Space, tab, CR, LF. *)
Definition isJSONSpace (c : ascii) : bool := inCutset c (bytes [32; 9; 13; 10]).

(** The scanner skips white space between tokens. *)
Definition skipsSpace (st : scanState) (c : ascii) : bool :=
  match st with
  | OutsideString => isJSONSpace c
  | _ => false
  end.

Definition isHTMLByte (c : ascii) : bool := inCutset c "<>&".

Definition hexDigit (n : nat) : ascii :=
  nth n (list_ascii_of_string "0123456789abcdef") "0"%char.

(** [c] starts the encoding of U+2028 or U+2029 (E2 80 A8, E2 80 A9). *)
Definition isLineSep (c : ascii) (rest : string) : bool :=
  Ascii.eqb c (ascii_of_nat 226)
  && match rest with
     | String c2 (String c3 _) =>
         Ascii.eqb c2 (ascii_of_nat 128)
         && (Ascii.eqb c3 (ascii_of_nat 168) || Ascii.eqb c3 (ascii_of_nat 169))
     | _ => false
     end.

(** [appendCompact(dst, src, escape)] of [encoding/json] with [escape]
    set. *)
Fixpoint appendCompact (st : scanState) (src : string) : string :=
  match src with
  | EmptyString => EmptyString
  | String c rest =>
      if isHTMLByte c then
        "\u00"
        +:+ String (hexDigit (nat_of_ascii c / 16))
              (String (hexDigit (nat_of_ascii c mod 16))
                 (appendCompact (scanStep st c) rest))
      else if isLineSep c rest then
        match rest with
        | String _ (String c3 rest') =>
            "\u202"
            +:+ String (hexDigit (nat_of_ascii c3 mod 16)) (appendCompact st rest')
        | _ => String c (appendCompact (scanStep st c) rest)
        end
      else if skipsSpace st c then appendCompact st rest
      else String c (appendCompact (scanStep st c) rest)
  end.

(** The bytes [nc.enc.Encode(jsonRaw)] hands to the node connection. *)
Definition encodeRawMessage (jsonRaw : string) : string :=
  appendCompact OutsideString jsonRaw +:+ nl.

(** The bytes a trace hands to the node connection for the frames it
    relays, one write per frame. *)
Definition relayedBytes (t : list effect) : list string :=
  List.map encodeRawMessage (relayed t).


(** ** Status requests that reach the node *)





(** ** Sample inputs *)
Module Sample.

Definition jstr (s : string) : string := q +:+ s +:+ q.

(** The text of a login frame. *)
Definition loginText (l p a : string) : string :=
  "{" +:+ jstr "id" +:+ ":" +:+ jstr "1" +:+ ","
  +:+ jstr "jsonrpc" +:+ ":" +:+ jstr "2.0" +:+ ","
  +:+ jstr "method" +:+ ":" +:+ jstr "login" +:+ ","
  +:+ jstr "params" +:+ ":{"
  +:+ jstr "login" +:+ ":" +:+ jstr l +:+ ","
  +:+ jstr "pass" +:+ ":" +:+ jstr p +:+ ","
  +:+ jstr "agent" +:+ ":" +:+ jstr a +:+ "}}".

(** What [json.Unmarshal] makes of it. *)
Definition loginReq (l p a : string) : stratumRequest :=
  {| ID := "1"; JsonRpc := "2.0"; Method := "login";
     Params := Some (<["login" := JString l]>
                      (<["pass" := JString p]>
                        (<["agent" := JString a]> ∅))) |}.

Definition loginFrame (l p a : string) (v : verifyResult) : event :=
  MinerFrame (Decoded (loginText l p a))
    {| unmarshalled := Some (loginReq l p a); verdict := v; rand63 := 42 |}.

Definition conf0 : config := {| OmitAgentStatus := ["omit"]; Diff := 1 |}.

Definition anyEnv : frameEnv :=
  {| unmarshalled := None; verdict := correctPassword; rand63 := 42 |}.

Definition keepaliveText : string :=
  "{" +:+ jstr "id" +:+ ":" +:+ jstr "2" +:+ ","
  +:+ jstr "jsonrpc" +:+ ":" +:+ jstr "2.0" +:+ ","
  +:+ jstr "method" +:+ ":" +:+ jstr "keepalive" +:+ "}".


Definition keepaliveReq : stratumRequest :=
  {| ID := "2"; JsonRpc := "2.0"; Method := "keepalive"; Params := None |}.

Definition submitRes (result : jsonValue) (err : jsonMap) : stratumResponse :=
  {| resID := "3"; resJsonRpc := "2.0"; resMethod := "submit";
     Result := result; Error := err |}.

Definition statusRes (result : jsonValue) : stratumResponse :=
  {| resID := "0"; resJsonRpc := "2.0"; resMethod := "status";
     Result := result; Error := None |}.

Definition alice : minerSession :=
  {| login := "alice"; agent := "rig"; difficulty := 1 |}.

Definition aliceConn : conn :=
  {| vars := {| session := alice; loginVar := "alice" |};
     running := true; heartbeats := 1; trace := [] |}.

End Sample.

(** ** Facts about the string functions *)
Section StringFacts.

Lemma append_nil (s : string) : "" +:+ s = s.
Proof. reflexivity. Qed.

Lemma append_cons (a : ascii) (s t : string) :
  String a s +:+ t = String a (s +:+ t).
Proof. reflexivity. Qed.

Lemma stripPrefix_Some (p s r : string) :
  stripPrefix p s = Some r <-> s = p +:+ r.
Proof.
  revert s; induction p as [|a p IH]; intros s; simpl.
  - rewrite append_nil. split; congruence.
  - rewrite append_cons. destruct s as [|b s]; [split; discriminate|].
    destruct (Ascii.eqb_spec a b) as [->|Hne].
    + rewrite IH. split; congruence.
    + split; [discriminate|]. intros H; injection H; congruence.
Qed.

Lemma Contains_unfold (s substr : string) :
  Contains s substr =
    match stripPrefix substr s with
    | Some _ => true
    | None =>
        match s with
        | EmptyString => false
        | String _ s' => Contains s' substr
        end
    end.
Proof. destruct s; reflexivity. Qed.

(** [Contains] finds exactly the substrings. *)
Lemma Contains_spec (s substr : string) :
  Contains s substr = true <-> exists pre post, s = pre +:+ substr +:+ post.
Proof.
  split.
  - induction s as [|a s IH]; rewrite Contains_unfold.
    + destruct (stripPrefix substr "") as [r|] eqn:E; [|discriminate].
      intros _. apply stripPrefix_Some in E. by exists "", r.
    + destruct (stripPrefix substr (String a s)) as [r|] eqn:E.
      * intros _. apply stripPrefix_Some in E. by exists "", r.
      * intros H. destruct (IH H) as (pre & post & ->).
        by exists (String a pre), post.
  - intros (pre & post & ->). induction pre as [|a pre IH]; rewrite Contains_unfold.
    + rewrite append_nil.
      assert (Hs : stripPrefix substr (substr +:+ post) = Some post)
        by by apply stripPrefix_Some.
      by rewrite Hs.
    + rewrite append_cons. destruct (stripPrefix substr _); [done|]. exact IH.
Qed.

Lemma dropWhileIn_split (cutset : string) (l : list ascii) :
  exists pre, l = pre ++ dropWhileIn cutset l
              /\ forallb (fun c => inCutset c cutset) pre = true.
Proof.
  induction l as [|c l (pre & Hl & Hpre)]; simpl.
  - by exists [].
  - destruct (inCutset c cutset) eqn:E.
    + exists (c :: pre). simpl. rewrite E, Hpre. split; [congruence|done].
    + by exists [].
Qed.

Lemma dropWhileIn_head (cutset : string) (l : list ascii) (c : ascii) :
  head (dropWhileIn cutset l) = Some c -> inCutset c cutset = false.
Proof.
  induction l as [|d l IH]; simpl; [discriminate|].
  destruct (inCutset d cutset) eqn:E; [exact IH|].
  simpl. congruence.
Qed.

Lemma dropWhileIn_suffix (cutset : string) (l : list ascii) :
  exists pre, l = pre ++ dropWhileIn cutset l.
Proof. destruct (dropWhileIn_split cutset l) as (pre & H & _). eauto. Qed.

Lemma forallb_rev {A} (f : A -> bool) (l : list A) :
  forallb f (List.rev l) = forallb f l.
Proof.
  induction l as [|a l IH]; simpl; [done|].
  rewrite forallb_app, IH. simpl. rewrite andb_true_r. apply andb_comm.
Qed.

Lemma string_of_list_app (l1 l2 : list ascii) :
  string_of_list_ascii (l1 ++ l2)
  = string_of_list_ascii l1 +:+ string_of_list_ascii l2.
Proof.
  induction l1 as [|a l1 IH]; simpl; [done|]. by rewrite append_cons, IH.
Qed.

Lemma firstByte_of_list (l : list ascii) :
  firstByte (string_of_list_ascii l) = head l.
Proof. by destruct l. Qed.

(** The last element of a non-empty suffix is the last element of the
    whole list. *)
Lemma head_rev_suffix (pre l : list ascii) (c : ascii) :
  head (List.rev l) = Some c -> head (List.rev (pre ++ l)) = Some c.
Proof.
  rewrite rev_app_distr. destruct (List.rev l); simpl; [discriminate|done].
Qed.

(** [Trim] removes a prefix and a suffix made of cutset bytes, and what it
    leaves neither starts nor ends with a cutset byte. *)
Lemma Trim_spec (s cutset : string) :
  exists pre suf,
    s = pre +:+ Trim s cutset +:+ suf
    /\ allInCutset cutset pre = true
    /\ allInCutset cutset suf = true
    /\ (forall c, firstByte (Trim s cutset) = Some c -> inCutset c cutset = false)
    /\ (forall c, lastByte (Trim s cutset) = Some c -> inCutset c cutset = false).
Proof.
  unfold Trim, TrimLeft, TrimRight, allInCutset, lastByte, revString.
  rewrite !list_ascii_of_string_of_list_ascii.
  set (l := list_ascii_of_string s).
  set (r := dropWhileIn cutset (List.rev l)).
  destruct (dropWhileIn_split cutset (List.rev l)) as (suf & Hsuf & Hsufall).
  destruct (dropWhileIn_split cutset (List.rev r)) as (pre & Hpre & Hpreall).
  fold r in Hsuf.
  exists (string_of_list_ascii pre), (string_of_list_ascii (List.rev suf)).
  rewrite !list_ascii_of_string_of_list_ascii, forallb_rev.
  repeat split; try done.
  - rewrite <- !string_of_list_app, app_assoc, <- Hpre.
    rewrite <- rev_app_distr, <- Hsuf, rev_involutive.
    unfold l. by rewrite string_of_list_ascii_of_string.
  - intros c. rewrite firstByte_of_list. apply dropWhileIn_head.
  - intros c. rewrite firstByte_of_list. intros Hc.
    apply (dropWhileIn_head cutset (List.rev l)). fold r.
    rewrite <- (rev_involutive r), Hpre.
    by apply head_rev_suffix.
Qed.

(** The cutset of the block-hash trim, as a set of characters. *)
Lemma block_cutset (c : ascii) :
  inCutset c "block - " = true
  <-> In c ["b"; "l"; "o"; "c"; "k"; "-"; " "]%char.
Proof.
  simpl. rewrite !orb_true_iff, !Ascii.eqb_eq. intuition congruence.
Qed.

End StringFacts.

(** ** Facts about traces *)
Section TraceFacts.

Lemma dbCalls_app (t1 t2 : list effect) :
  dbCalls (t1 ++ t2) = dbCalls t1 ++ dbCalls t2.
Proof.
  induction t1 as [|e t1 IH]; simpl; [done|].
  destruct e; simpl; by rewrite IH.
Qed.

Lemma blockHashes_app (t1 t2 : list effect) :
  blockHashes (t1 ++ t2) = blockHashes t1 ++ blockHashes t2.
Proof.
  induction t1 as [|e t1 IH]; simpl; [done|].
  destruct e as [| [] | | | | | | | |]; simpl; by rewrite IH.
Qed.

Lemma goCount_app (t1 t2 : list effect) :
  goCount (t1 ++ t2) = goCount t1 + goCount t2.
Proof.
  induction t1 as [|e t1 IH]; simpl; [done|].
  destruct e; simpl; by rewrite IH.
Qed.

Lemma statusSends_app (t1 t2 : list effect) :
  statusSends (t1 ++ t2) = statusSends t1 ++ statusSends t2.
Proof.
  induction t1 as [|e t1 IH]; simpl; [done|].
  destruct e; simpl; by rewrite IH.
Qed.

Lemma relayed_app (t1 t2 : list effect) :
  relayed (t1 ++ t2) = relayed t1 ++ relayed t2.
Proof.
  induction t1 as [|e t1 IH]; simpl; [done|].
  destruct e; simpl; by rewrite IH.
Qed.

Lemma connWrites_app (t1 t2 : list effect) :
  connWrites (t1 ++ t2) = connWrites t1 ++ connWrites t2.
Proof.
  induction t1 as [|e t1 IH]; simpl; [done|].
  destruct e; simpl; by rewrite IH.
Qed.

Lemma logIfErr_silent (err : option goError) :
  dbCalls (logIfErr err) = [] /\ blockHashes (logIfErr err) = []
  /\ goCount (logIfErr err) = 0 /\ statusSends (logIfErr err) = []
  /\ relayed (logIfErr err) = [].
Proof. by destruct err. Qed.

(** Forwarding the pushed message to the miner is no database call. *)
Lemma dbCalls_pushHandler ms sr encodeErr res :
  dbCalls (pushHandler ms sr encodeErr res) = dbCalls (handleMethod ms res).
Proof.
  unfold pushHandler. simpl. rewrite dbCalls_app.
  by rewrite (proj1 (logIfErr_silent encodeErr)).
Qed.

Lemma blockHashes_pushHandler ms sr encodeErr res :
  blockHashes (pushHandler ms sr encodeErr res) = blockHashes (handleMethod ms res).
Proof.
  unfold pushHandler. simpl. rewrite blockHashes_app.
  by rewrite (proj1 (proj2 (logIfErr_silent encodeErr))).
Qed.

Lemma trace_push conf c sr encodeErr res :
  trace (step conf c (NodePush sr encodeErr res))
  = trace c ++ pushHandler (session (vars c)) sr encodeErr res.
Proof. reflexivity. Qed.

(** [handleMethod] on a submit response without error. *)
Lemma handleMethod_submit ms res :
  resMethod res = "submit" -> Error res = None ->
  dbCalls (handleMethod ms res)
  = match Result res with
    | JString detail =>
        putShare (login ms) (agent ms) (difficulty ms)
        :: (if Contains detail "block"
            then [putBlockHash (Trim detail "block - ")] else [])
    | _ => []
    end.
Proof.
  intros Hm He. unfold handleMethod. rewrite Hm, He. simpl.
  destruct (Result res); simpl; try done.
  by destruct (Contains _ _).
Qed.

End TraceFacts.

(** ** Classification of pushed responses *)

(** C5: a pushed submit response with no error whose result is a string
    containing "block" makes exactly one [putShare] call and then exactly
    one [putBlockHash] call, with the hash trimmed out of the result text;
    a pushed submit response with an error makes no database call. *)
Theorem C5_submit_recording (conf : config) (c : conn) (sr : string)
    (encodeErr : option goError) (res : stratumResponse) :
  resMethod res = "submit" ->
  let ms := session (vars c) in
  let c' := step conf c (NodePush sr encodeErr res) in
  (forall detail,
      Error res = None -> Result res = JString detail ->
      Contains detail "block" = true ->
      dbCalls (trace c')
      = dbCalls (trace c)
        ++ [putShare (login ms) (agent ms) (difficulty ms);
            putBlockHash (Trim detail "block - ")])
  /\ (forall e, Error res = Some e -> dbCalls (trace c') = dbCalls (trace c)).
Proof.
  intros Hm ms c'. subst c'. rewrite trace_push, dbCalls_app, dbCalls_pushHandler.
  split.
  - intros detail He Hr Hc. rewrite handleMethod_submit by done.
    by rewrite Hr, Hc.
  - intros e He. unfold handleMethod. rewrite Hm, He. simpl.
    by rewrite app_nil_r.
Qed.

Lemma C5_submit_recording_witness :
  dbCalls (trace (step Sample.conf0 Sample.aliceConn
                    (NodePush "r" None
                       (Sample.submitRes (JString "block - 0a1f") None))))
  = [putShare "alice" "rig" 1; putBlockHash "0a1f"]
  /\ dbCalls (trace (step Sample.conf0 Sample.aliceConn
                       (NodePush "r" None
                          (Sample.submitRes JNull (Some ∅)))))
     = [].
Proof.
  split.
  - apply (proj1 (C5_submit_recording Sample.conf0 Sample.aliceConn "r" None
                    (Sample.submitRes (JString "block - 0a1f") None) eq_refl)
             "block - 0a1f"); reflexivity.
  - apply (proj2 (C5_submit_recording Sample.conf0 Sample.aliceConn "r" None
                    (Sample.submitRes JNull (Some ∅)) eq_refl) ∅).
    reflexivity.
Defined.

(** C6: for a submit detail containing "block", the recorded block hash is
    the detail with every leading and every trailing character of the set
    b, l, o, c, k, -, space removed: the detail is a prefix of such
    characters, the hash, and a suffix of such characters, and the hash
    neither starts nor ends with one of them. *)
Theorem C6_block_hash_is_cutset_trim (conf : config) (c : conn) (sr : string)
    (encodeErr : option goError) (res : stratumResponse) (detail : string) :
  resMethod res = "submit" -> Error res = None ->
  Result res = JString detail -> Contains detail "block" = true ->
  exists pre hash suf,
    blockHashes (trace (step conf c (NodePush sr encodeErr res)))
    = blockHashes (trace c) ++ [hash]
    /\ detail = pre +:+ hash +:+ suf
    /\ allInCutset "block - " pre = true
    /\ allInCutset "block - " suf = true
    /\ (forall ch, firstByte hash = Some ch -> inCutset ch "block - " = false)
    /\ (forall ch, lastByte hash = Some ch -> inCutset ch "block - " = false)
    /\ (forall ch, inCutset ch "block - " = true
                   <-> In ch ["b"; "l"; "o"; "c"; "k"; "-"; " "]%char).
Proof.
  intros Hm He Hr Hc.
  destruct (Trim_spec detail "block - ") as (pre & suf & Hd & Hp & Hs & Hf & Hl).
  exists pre, (Trim detail "block - "), suf.
  rewrite trace_push, blockHashes_app, blockHashes_pushHandler.
  repeat split; try done; try apply block_cutset.
  unfold handleMethod. rewrite Hm, He, Hr. simpl. by rewrite Hc.
Qed.

Lemma C6_block_hash_is_cutset_trim_witness :
  exists pre hash suf,
    blockHashes (trace (step Sample.conf0 Sample.aliceConn
                          (NodePush "r" None
                             (Sample.submitRes (JString "block - cab0 k") None))))
    = blockHashes (trace Sample.aliceConn) ++ [hash]
    /\ "block - cab0 k" = pre +:+ hash +:+ suf
    /\ allInCutset "block - " pre = true
    /\ allInCutset "block - " suf = true
    /\ (forall ch, firstByte hash = Some ch -> inCutset ch "block - " = false)
    /\ (forall ch, lastByte hash = Some ch -> inCutset ch "block - " = false)
    /\ (forall ch, inCutset ch "block - " = true
                   <-> In ch ["b"; "l"; "o"; "c"; "k"; "-"; " "]%char).
Proof.
  apply (C6_block_hash_is_cutset_trim Sample.conf0 Sample.aliceConn "r" None
           (Sample.submitRes (JString "block - cab0 k") None) "block - cab0 k");
    reflexivity.
Defined.

(** C9: a pushed submit response with no error whose result is not a
    string makes no database call: neither [putShare] nor [putBlockHash]. *)
Theorem C9_non_string_result_records_nothing (conf : config) (c : conn)
    (sr : string) (encodeErr : option goError) (res : stratumResponse) :
  resMethod res = "submit" -> Error res = None ->
  (forall s, Result res <> JString s) ->
  dbCalls (trace (step conf c (NodePush sr encodeErr res))) = dbCalls (trace c).
Proof.
  intros Hm He Hr.
  rewrite trace_push, dbCalls_app, dbCalls_pushHandler, handleMethod_submit by done.
  destruct (Result res) as [| | |s| |]; try apply app_nil_r.
  by destruct (Hr s).
Qed.

Lemma C9_non_string_result_records_nothing_witness :
  dbCalls (trace (step Sample.conf0 Sample.aliceConn
                    (NodePush "r" None (Sample.submitRes (JBool true) None))))
  = dbCalls (trace Sample.aliceConn).
Proof.
  apply (C9_non_string_result_records_nothing Sample.conf0 Sample.aliceConn
           "r" None (Sample.submitRes (JBool true) None));
    [reflexivity | reflexivity | intros s; simpl; discriminate].
Defined.

(** C10: a pushed status response handled while the session's login is
    set makes exactly one [setMinerAgentStatus] call, with the session's
    login, agent and difficulty; the status mapping is the result when the
    result is a mapping and the nil map when it is not. *)
Theorem C10_status_recorded_once (conf : config) (c : conn) (sr : string)
    (encodeErr : option goError) (res : stratumResponse) :
  resMethod res = "status" -> login (session (vars c)) <> "" ->
  let ms := session (vars c) in
  exists status,
    dbCalls (trace (step conf c (NodePush sr encodeErr res)))
    = dbCalls (trace c)
      ++ [setMinerAgentStatus (login ms) (agent ms) (difficulty ms) status]
    /\ ((forall m, Result res <> JObject m) -> status = None)
    /\ (forall m, Result res = JObject m -> status = Some m).
Proof.
  intros Hm Hl ms. exists (fst (assertMap (Result res))).
  rewrite trace_push, dbCalls_app, dbCalls_pushHandler.
  unfold handleMethod. rewrite Hm.
  change (String.eqb "status" "status") with true. cbv iota.
  destruct (String.eqb_spec (login (session (vars c))) "") as [E|_]; [done|].
  simpl. repeat split.
  - intros Hr. destruct (Result res) as [| | | | |m]; try done. by destruct (Hr m).
  - intros m ->. done.
Qed.

Lemma C10_status_recorded_once_witness :
  exists status,
    dbCalls (trace (step Sample.conf0 Sample.aliceConn
                      (NodePush "r" None (Sample.statusRes (JString "busy")))))
    = dbCalls (trace Sample.aliceConn)
      ++ [setMinerAgentStatus "alice" "rig" 1 status]
    /\ ((forall m, JString "busy" <> JObject m) -> status = None)
    /\ (forall m, JString "busy" = JObject m -> status = Some m).
Proof.
  apply (C10_status_recorded_once Sample.conf0 Sample.aliceConn "r" None
           (Sample.statusRes (JString "busy")));
    [reflexivity | simpl; discriminate].
Defined.

(** ** Facts about the read loop *)
Section ReadLoopFacts.

Context (conf : config).

Lemma length_nonempty (s : string) : s <> "" -> Nat.eqb (String.length s) 0 = false.
Proof. by destruct s. Qed.

(** What [case "login":] leaves in the session. *)
Lemma handleLogin_session st jsonRaw clientReq env :
  session (fst (handleLogin conf st jsonRaw clientReq env))
  = {| login := committedLogin clientReq env;
       agent := loginAgent clientReq env;
       difficulty := difficulty (session st) |}.
Proof. unfold handleLogin, committedLogin. by destruct (verdict env). Qed.

(** [case "login":] starts a heartbeat task exactly when no omit-substring
    occurs in the agent, sends no heartbeat itself, and relays the frame. *)
Lemma handleLogin_effects st jsonRaw clientReq env :
  let effs := snd (handleLogin conf st jsonRaw clientReq env) in
  goCount effs
  = (if requireCallStatus (loginAgent clientReq env) (OmitAgentStatus conf)
     then 1 else 0)
  /\ statusSends effs = []
  /\ relayed effs = [jsonRaw].
Proof.
  unfold handleLogin.
  destruct (verdict env), (requireCallStatus _ _); by simpl.
Qed.

(** A frame that is no login request leaves the variables of the loop
    alone, starts no task and sends no heartbeat. *)
Lemma handleFrame_other st d env :
  loginRequestOf (MinerFrame d env) = None ->
  exists ctl effs,
    handleFrame conf st d env = (ctl, st, effs)
    /\ goCount effs = 0 /\ statusSends effs = [].
Proof.
  unfold loginRequestOf, handleFrame. destruct d as [raw|e].
  - destruct (Nat.eqb (String.length raw) 0); [by eexists _, _|].
    destruct (unmarshalled env) as [req|]; [|by eexists _, _].
    destruct (String.eqb (Method req) "login"); [discriminate|].
    intros _. eexists _, _. split; [done|].
    by destruct (hasNotLoggedIn (session st)).
  - intros _. destruct e as [t|t].
    + destruct (String.eqb t ECONNRESET_Error); by eexists _, _.
    + by eexists _, _.
Qed.

(** A login request runs [case "login":] and the loop goes on. *)
Lemma handleFrame_login st d env clientReq env' :
  loginRequestOf (MinerFrame d env) = Some (clientReq, env') ->
  exists jsonRaw,
    d = Decoded jsonRaw /\ env' = env /\ jsonRaw <> ""
    /\ unmarshalled env = Some clientReq /\ Method clientReq = "login"
    /\ handleFrame conf st d env
       = (Continue, fst (handleLogin conf st jsonRaw clientReq env),
          Log INFO [LRemoteAddr; LStr " sends a "; LStr (Method clientReq);
                    LStr " request:"; LStr jsonRaw]
          :: snd (handleLogin conf st jsonRaw clientReq env)).
Proof.
  unfold loginRequestOf, handleFrame. destruct d as [raw|e]; [|discriminate].
  destruct (Nat.eqb (String.length raw) 0) eqn:El; [discriminate|].
  destruct (unmarshalled env) as [req|]; [|discriminate].
  destruct (String.eqb_spec (Method req) "login") as [Em|]; [|discriminate].
  intros [= -> ->]. exists raw. repeat split; try done.
  - intros ->. discriminate.
  - by destruct (handleLogin conf st raw clientReq env').
Qed.

Lemma step_frame c d env :
  running c = true ->
  step conf c (MinerFrame d env)
  = let '(ctl, st, effs) := handleFrame conf (vars c) d env in
    match ctl with
    | Continue =>
        {| vars := st; running := true;
           heartbeats := heartbeats c + goCount effs;
           trace := trace c ++ effs |}
    | Return =>
        {| vars := st; running := false;
           heartbeats := heartbeats c + goCount effs;
           trace := trace c ++ effs ++ deferred |}
    end.
Proof. intros H. unfold step. by rewrite H. Qed.

(** [session.login] after one event. *)
Lemma login_after_step c ev :
  login (session (vars (step conf c ev)))
  = match loginRequestOf ev with
    | Some (clientReq, env) =>
        if running c then committedLogin clientReq env
        else login (session (vars c))
    | None => login (session (vars c))
    end.
Proof.
  destruct ev as [d env|sr e res|sel].
  - destruct (running c) eqn:Hr.
    + rewrite step_frame by done.
      destruct (loginRequestOf (MinerFrame d env)) as [[req env']|] eqn:E.
      * destruct (handleFrame_login (vars c) _ _ _ _ E)
          as (raw & -> & -> & _ & _ & _ & ->).
        simpl. by rewrite handleLogin_session.
      * destruct (handleFrame_other (vars c) _ _ E) as (ctl & effs & -> & _).
        by destruct ctl.
    + unfold step. rewrite Hr. by destruct (loginRequestOf _) as [[]|].
  - reflexivity.
  - simpl. destruct (heartbeats c), sel; try done. by destruct (running c).
Qed.

(** Events that are no login requests never change [session.login]. *)
Lemma login_kept_by_run c evs :
  Forall (fun ev => loginRequestOf ev = None) evs ->
  login (session (vars (run conf c evs))) = login (session (vars c)).
Proof.
  intros H. revert c. induction H as [|ev evs Hev _ IH]; intros c; [done|].
  unfold run in *. simpl. rewrite IH, login_after_step. by rewrite Hev.
Qed.

End ReadLoopFacts.

(** ** The read loop *)


Section EncoderFacts.



Lemma relayedBytes_app (t1 t2 : list effect) :
  relayedBytes (t1 ++ t2) = relayedBytes t1 ++ relayedBytes t2.
Proof. unfold relayedBytes. by rewrite relayed_app, map_app. Qed.

End EncoderFacts.




(** C1, as the specification states it, fails on a first login with a
    wrong password: the login frame is relayed to the node, and the bytes
    written to the miner are not the one-line text of section 6. *)
Lemma C1_counterexample :
  let c' := step Sample.conf0 (newConn Sample.conf0)
              (Sample.loginFrame "alice" "bad" "rig" wrongPassword) in
  relayed (trace c') = [Sample.loginText "alice" "bad" "rig"]
  /\ connWrites (trace c') = [loginErrorReply]
  /\ loginErrorReply <> loginErrorReply_spec.
Proof. repeat split. discriminate. Qed.

(** C1, amended: after a login request that [verifyMiner] answers with
    [wrongPassword], the session's login is empty and stays empty as long
    as no further login request is handled; the error literal of the
    source, which is the JSON text of section 6 laid out with white space
    between its tokens, is written to the miner socket; and the login
    frame is relayed to the node all the same. *)
Theorem C1_wrong_login (conf : config) (c : conn) (jsonRaw : string)
    (clientReq : stratumRequest) (env : frameEnv) :
  running c = true -> jsonRaw <> "" ->
  unmarshalled env = Some clientReq -> Method clientReq = "login" ->
  verdict env = wrongPassword ->
  let c' := step conf c (MinerFrame (Decoded jsonRaw) env) in
  login (session (vars c')) = ""
  /\ (forall evs, Forall (fun ev => loginRequestOf ev = None) evs ->
                  login (session (vars (run conf c' evs))) = "")
  /\ connWrites (trace c') = connWrites (trace c) ++ [loginErrorReply]
  /\ dropInsignificantSpace false loginErrorReply = loginErrorReply_spec
  /\ relayed (trace c') = relayed (trace c) ++ [jsonRaw]
  /\ running c' = true.
Proof.
  intros Hrun Hraw Hreq Hm Hv c'.
  assert (Hl : login (session (vars c')) = "").
  { subst c'. rewrite login_after_step. unfold loginRequestOf.
    rewrite (length_nonempty _ Hraw), Hreq, Hm, Hrun. simpl.
    unfold committedLogin. by rewrite Hv. }
  split; [done|]. split.
  { intros evs Hevs. by rewrite login_kept_by_run. }
  subst c'. rewrite step_frame by done.
  unfold handleFrame. rewrite (length_nonempty _ Hraw), Hreq, Hm. simpl.
  unfold handleLogin. rewrite Hv.
  destruct (requireCallStatus _ _); simpl;
    rewrite connWrites_app, relayed_app; simpl; by repeat split.
Qed.

Lemma C1_wrong_login_witness :
  let c' := step Sample.conf0 (newConn Sample.conf0)
              (Sample.loginFrame "alice" "bad" "rig" wrongPassword) in
  login (session (vars c')) = ""
  /\ (forall evs, Forall (fun ev => loginRequestOf ev = None) evs ->
                  login (session (vars (run Sample.conf0 c' evs))) = "")
  /\ connWrites (trace c') = connWrites (trace (newConn Sample.conf0)) ++ [loginErrorReply]
  /\ dropInsignificantSpace false loginErrorReply = loginErrorReply_spec
  /\ relayed (trace c')
     = relayed (trace (newConn Sample.conf0)) ++ [Sample.loginText "alice" "bad" "rig"]
  /\ running c' = true.
Proof.
  apply (C1_wrong_login Sample.conf0 (newConn Sample.conf0)
           (Sample.loginText "alice" "bad" "rig")
           (Sample.loginReq "alice" "bad" "rig")
           {| unmarshalled := Some (Sample.loginReq "alice" "bad" "rig");
              verdict := wrongPassword; rand63 := 42 |});
    [reflexivity | discriminate | reflexivity | reflexivity | reflexivity].
Defined.

(** C2, as the specification states it, fails: a read error that is not a
    network operation error is logged but the loop returns, and a network
    operation error other than a peer reset is not even logged before the
    loop returns. Either way the connection is torn down. *)
Lemma C2_counterexample :
  handleFrame Sample.conf0 (vars Sample.aliceConn)
    (DecodeFailed (OtherError "unexpected EOF")) Sample.anyEnv
  = (Return, vars Sample.aliceConn, [Log ERROR [LErr (OtherError "unexpected EOF")]])
  /\ handleFrame Sample.conf0 (vars Sample.aliceConn)
       (DecodeFailed (OpError "i/o timeout")) Sample.anyEnv
     = (Return, vars Sample.aliceConn, [])
  /\ running (step Sample.conf0 Sample.aliceConn
                (MinerFrame (DecodeFailed (OtherError "unexpected EOF"))
                   Sample.anyEnv))
     = false.
Proof. by repeat split. Qed.

(** C2, amended: every read error from the miner socket ends the read
    loop, since the failed read leaves the frame empty: the connection is
    torn down by the deferred calls. The error is logged first when it is
    not a network operation error; a network operation error, peer reset
    or not, is not logged. *)
Theorem C2_read_error_ends_connection (conf : config) (c : conn)
    (err : goError) (env : frameEnv) :
  running c = true ->
  let c' := step conf c (MinerFrame (DecodeFailed err) env) in
  running c' = false
  /\ vars c' = vars c
  /\ trace c'
     = trace c
       ++ match err with
          | OpError _ => []
          | OtherError _ => [Log ERROR [LErr err]]
          end
       ++ deferred.
Proof.
  intros Hrun c'. subst c'. rewrite step_frame by done.
  unfold handleFrame. destruct err as [t|t]; simpl.
  - by destruct (String.eqb t ECONNRESET_Error).
  - done.
Qed.

Lemma C2_read_error_ends_connection_witness :
  let c' := step Sample.conf0 Sample.aliceConn
              (MinerFrame (DecodeFailed (OpError "i/o timeout")) Sample.anyEnv) in
  running c' = false
  /\ vars c' = vars Sample.aliceConn
  /\ trace c' = trace Sample.aliceConn ++ [] ++ deferred.
Proof.
  apply (C2_read_error_ends_connection Sample.conf0 Sample.aliceConn
           (OpError "i/o timeout") Sample.anyEnv).
  reflexivity.
Defined.

(** C3, as the specification states it, fails: a second login request
    replaces a login that is already set, and one that [verifyMiner]
    answers with [wrongPassword] empties it again. *)
Lemma C3_counterexample :
  login (session (vars (run Sample.conf0 (newConn Sample.conf0)
           [Sample.loginFrame "alice" "p" "rig" correctPassword])))
  = "alice"
  /\ login (session (vars (run Sample.conf0 (newConn Sample.conf0)
             [Sample.loginFrame "alice" "p" "rig" correctPassword;
              Sample.loginFrame "bob" "p" "rig" correctPassword])))
     = "bob"
  /\ login (session (vars (run Sample.conf0 (newConn Sample.conf0)
             [Sample.loginFrame "alice" "p" "rig" correctPassword;
              Sample.loginFrame "alice" "bad" "rig" wrongPassword])))
     = "".
Proof. by repeat split. Qed.

(** C3, amended: the session's login is written by login requests only,
    and by every one of them: after a login request handled by the running
    read loop it is the trimmed login parameter when [verifyMiner] answers
    [correctPassword] or [noPassword] and empty when it answers
    [wrongPassword], whatever it was before; no other event changes it. *)
Theorem C3_login_written_by_login_requests (conf : config) (c : conn) :
  (forall ev,
      login (session (vars (step conf c ev)))
      = match loginRequestOf ev with
        | Some (clientReq, env) =>
            if running c then
              match verdict env with
              | wrongPassword => ""
              | _ => TrimSpace
                       (fst (assertString (mapIndex (Params clientReq) "login")))
              end
            else login (session (vars c))
        | None => login (session (vars c))
        end)
  /\ (forall evs,
         Forall (fun ev => loginRequestOf ev = None) evs ->
         login (session (vars (run conf c evs))) = login (session (vars c))).
Proof.
  split.
  - intros ev. apply login_after_step.
  - apply login_kept_by_run.
Qed.

Lemma C3_login_written_by_login_requests_witness :
  login (session (vars (run Sample.conf0 Sample.aliceConn
           [MinerFrame (Decoded Sample.keepaliveText)
              {| unmarshalled := Some Sample.keepaliveReq;
                 verdict := wrongPassword; rand63 := 0 |};
            NodePush "r" None (Sample.statusRes JNull);
            Heartbeat (Tick None)])))
  = "alice".
Proof.
  apply (proj2 (C3_login_written_by_login_requests Sample.conf0 Sample.aliceConn)).
  repeat constructor.
Defined.

(** ** Heartbeat tasks *)
Section HeartbeatFacts.

Context (conf : config).

Lemma handleMethod_sends_no_status ms res :
  statusSends (handleMethod ms res) = [].
Proof.
  unfold handleMethod.
  destruct (String.eqb (resMethod res) "status").
  { by destruct (String.eqb (login ms) ""). }
  destruct (String.eqb (resMethod res) "submit"); [|done].
  destruct (Error res); [done|].
  destruct (assertString (Result res)) as [detail [|]]; simpl; [|done].
  by destruct (Contains detail "block").
Qed.

(** The loop over the omit-substrings says no exactly when one of them
    occurs in the agent. *)
Lemma requireCallStatus_false (agent1 : string) (omit : list string) :
  requireCallStatus agent1 omit = false
  <-> exists omitSubstr, In omitSubstr omit /\ Contains agent1 omitSubstr = true.
Proof.
  induction omit as [|o omit IH]; simpl.
  - split; [discriminate|]. by intros (? & [] & _).
  - destruct (Contains agent1 o) eqn:E.
    + split; [|done]. intros _. exists o. by split; [left|].
    + rewrite IH. split.
      * intros (x & Hx & Hc). exists x. by split; [right|].
      * intros (x & [->|Hx] & Hc); [congruence|by exists x].
Qed.

(** The heartbeat tasks and the heartbeats sent after one event. *)
Lemma heartbeat_step c ev :
  heartbeats (step conf c ev)
  = match ev with
    | MinerFrame _ _ =>
        heartbeats c
        + (if running c && startsHeartbeat conf ev then 1 else 0)
    | NodePush _ _ _ => heartbeats c
    | Heartbeat (Tick _) => heartbeats c
    | Heartbeat Done => if running c then heartbeats c else pred (heartbeats c)
    end
  /\ statusSends (trace (step conf c ev))
     = statusSends (trace c)
       ++ match ev, heartbeats c with
          | Heartbeat (Tick _), S _ => [statusReq]
          | _, _ => []
          end.
Proof.
  destruct ev as [d env|sr e res|sel].
  - destruct (running c) eqn:Hr.
    + rewrite step_frame by done. unfold startsHeartbeat.
      destruct (loginRequestOf (MinerFrame d env)) as [[req env']|] eqn:E.
      * destruct (handleFrame_login conf (vars c) _ _ _ _ E)
          as (raw & -> & -> & _ & _ & _ & ->).
        destruct (handleLogin_effects conf (vars c) raw req env) as (Hg & Hs & _).
        simpl in *. rewrite statusSends_app. simpl. rewrite Hg, Hs.
        by destruct (requireCallStatus _ _).
      * destruct (handleFrame_other conf (vars c) _ _ E)
          as (ctl & effs & -> & Hg & Hs).
        destruct ctl; simpl; rewrite ?statusSends_app, Hg, Hs; simpl;
          rewrite ?app_nil_r; split; done || lia.
    + unfold step. rewrite Hr. simpl. rewrite app_nil_r. split; done || lia.
  - simpl. rewrite statusSends_app. unfold pushHandler. simpl.
    rewrite statusSends_app, handleMethod_sends_no_status.
    by rewrite (proj1 (proj2 (proj2 (proj2 (logIfErr_silent e))))).
  - simpl. destruct (heartbeats c) as [|n] eqn:Hn, sel as [e|]; simpl;
      rewrite ?app_nil_r; try done.
    + by destruct (running c).
    + rewrite statusSends_app. simpl.
      by rewrite (proj1 (proj2 (proj2 (proj2 (logIfErr_silent e))))).
    + destruct (running c); simpl; by rewrite ?app_nil_r.
Qed.

(** Once [handleConn] has returned it does not run again. *)
Lemma running_step c ev :
  running (step conf c ev) = true -> running c = true.
Proof.
  destruct ev as [d env|sr e res|sel]; simpl.
  - destruct (running c) eqn:E; [done|congruence].
  - done.
  - destruct (heartbeats c), sel; try done.
    destruct (running c) eqn:E; [done|]. simpl. congruence.
Qed.

Lemma running_run c evs :
  running (run conf c evs) = true -> running c = true.
Proof.
  revert c. induction evs as [|ev evs IH]; intros c; [done|].
  intros H. apply (running_step c ev), IH, H.
Qed.


Lemma heartbeats_run_le c evs :
  heartbeats (run conf c evs)
  <= heartbeats c + length (List.filter (startsHeartbeat conf) evs).
Proof.
  revert c. induction evs as [|ev evs IH]; intros c; simpl; [lia|].
  etrans; [apply IH|].
  rewrite (proj1 (heartbeat_step c ev)).
  destruct ev as [d env|sr e res|[e|]]; simpl.
  - destruct (running c), (startsHeartbeat conf (MinerFrame d env)); simpl; lia.
  - lia.
  - lia.
  - destruct (running c); lia.
Qed.

Lemma heartbeats_run_running c evs :
  running (run conf c evs) = true ->
  heartbeats (run conf c evs)
  = heartbeats c + length (List.filter (startsHeartbeat conf) evs).
Proof.
  revert c. induction evs as [|ev evs IH]; intros c; simpl; [lia|].
  intros Hr. rewrite (IH _ Hr). apply running_run, running_step in Hr.
  rewrite (proj1 (heartbeat_step c ev)), Hr.
  destruct ev as [d env|sr e res|[e|]]; simpl; try lia.
  destruct (startsHeartbeat conf (MinerFrame d env)); simpl; lia.
Qed.

(** With no task alive and none started, nothing sends a heartbeat. *)
Lemma no_task_no_status c evs :
  heartbeats c = 0 ->
  Forall (fun ev => running c && startsHeartbeat conf ev = false) evs ->
  heartbeats (run conf c evs) = 0
  /\ statusSends (trace (run conf c evs)) = statusSends (trace c).
Proof.
  revert c. induction evs as [|ev evs IH]; intros c Hh Hevs; [done|].
  inversion Hevs as [|? ? Hev Hevs']; subst.
  destruct (heartbeat_step c ev) as (Hb & Hs).
  assert (Hh' : heartbeats (step conf c ev) = 0).
  { rewrite Hb, Hh. destruct ev as [d env|sr e res|[e|]]; simpl; try done.
    - by rewrite Hev.
    - by destruct (running c). }
  assert (Hs' : statusSends (trace (step conf c ev)) = statusSends (trace c)).
  { rewrite Hs, Hh. destruct ev as [d env|sr e res|[e|]]; simpl; apply app_nil_r. }
  simpl. rewrite <- Hs'. apply IH; [done|].
  eapply Forall_impl; [exact Hevs'|]. intros ev' Hev'. simpl in Hev'.
  destruct (running (step conf c ev)) eqn:E; [|done].
  apply running_step in E. by rewrite E in Hev'.
Qed.

(** After cancellation each task returns by taking the [ctx.Done()] case. *)
Lemma all_tasks_return c n :
  running c = false ->
  heartbeats (run conf c (repeat (Heartbeat Done) n)) = heartbeats c - n
  /\ trace (run conf c (repeat (Heartbeat Done) n)) = trace c.
Proof.
  revert c. induction n as [|n IH]; intros c Hr; simpl; [split; [lia|done]|].
  destruct (heartbeats c) as [|k] eqn:Hk.
  - destruct (IH c Hr) as (Hh & Ht). rewrite Hh, Ht, Hk. split; [lia|done].
  - rewrite Hr.
    set (c1 := {| vars := vars c; running := false; heartbeats := k;
                  trace := trace c |}).
    destruct (IH c1 eq_refl) as (Hh & Ht). rewrite Hh, Ht. simpl. split; [lia|done].
Qed.


(** Until then it encodes one status request at every tick. *)
Lemma callStatusPerInterval_ticks sels :
  Forall (fun sel => sel <> Done) sels ->
  statusSends (fst (callStatusPerInterval (sels ++ [Done])))
  = repeat statusReq (length sels).
Proof.
  induction 1 as [|[e|] sels Hsel _ IH]; simpl; try done.
  destruct (callStatusPerInterval (sels ++ [Done])) as [effs r]. simpl in *.
  rewrite statusSends_app, IH.
  by rewrite (proj1 (proj2 (proj2 (proj2 (logIfErr_silent e))))).
Qed.

End HeartbeatFacts.

(** C4, as the specification states it, fails: every login request whose
    agent holds no omit-substring starts a heartbeat task of its own, so
    two of them leave two tasks running side by side. *)
Lemma C4_counterexample :
  heartbeats (run Sample.conf0 (newConn Sample.conf0)
                [Sample.loginFrame "alice" "p" "rig" correctPassword;
                 Sample.loginFrame "alice" "p" "rig" correctPassword])
  = 2.
Proof. reflexivity. Qed.

(** C4, amended: the heartbeat tasks alive on a connection are at most as
    many as the login requests it was sent whose agent holds no
    omit-substring, and exactly as many while the read loop runs (so at
    most one as long as at most one such request arrives); no heartbeat
    task ends while the read loop runs, and once the connection's scope is
    cancelled every task ends as soon as its select takes the
    cancellation. *)
Theorem C4_heartbeat_tasks (conf : config) :
  (forall evs,
      heartbeats (run conf (newConn conf) evs)
      <= length (List.filter (startsHeartbeat conf) evs))
  /\ (forall evs,
         running (run conf (newConn conf) evs) = true ->
         heartbeats (run conf (newConn conf) evs)
         = length (List.filter (startsHeartbeat conf) evs))
  /\ (forall c ev, running c = true -> heartbeats c <= heartbeats (step conf c ev))
  /\ (forall c,
         running c = false ->
         heartbeats (run conf c (repeat (Heartbeat Done) (heartbeats c))) = 0).
Proof.
  repeat split.
  - intros evs. apply (heartbeats_run_le conf (newConn conf) evs).
  - intros evs Hr. by rewrite heartbeats_run_running.
  - intros c ev Hr. rewrite (proj1 (heartbeat_step conf c ev)), Hr.
    destruct ev as [d env|sr e res|[e|]]; lia.
  - intros c Hr. rewrite (proj1 (all_tasks_return conf c (heartbeats c) Hr)). lia.
Qed.

Lemma C4_heartbeat_tasks_witness :
  heartbeats (run Sample.conf0 (newConn Sample.conf0)
                [Sample.loginFrame "alice" "p" "rig" correctPassword;
                 NodePush "r" None (Sample.statusRes JNull);
                 Sample.loginFrame "bob" "p" "omit-rig" correctPassword])
  = length (List.filter (startsHeartbeat Sample.conf0)
              [Sample.loginFrame "alice" "p" "rig" correctPassword;
               NodePush "r" None (Sample.statusRes JNull);
               Sample.loginFrame "bob" "p" "omit-rig" correctPassword])
  /\ heartbeats (run Sample.conf0
                   {| vars := vars Sample.aliceConn; running := false;
                      heartbeats := 2; trace := [] |}
                   (repeat (Heartbeat Done) 2))
     = 0.
Proof.
  split.
  - apply (proj1 (proj2 (C4_heartbeat_tasks Sample.conf0))). reflexivity.
  - apply (proj2 (proj2 (proj2 (C4_heartbeat_tasks Sample.conf0)))
             {| vars := vars Sample.aliceConn; running := false;
                heartbeats := 2; trace := [] |}).
    reflexivity.
Defined.

Section DeliveryFacts.

Context (conf : config).



End DeliveryFacts.




(** ** Examples *)

Example Trim_hash : Trim "block - 0a1f" "block - " = "0a1f".
Proof. reflexivity. Qed.

(** The trim is by character set: a hash that starts with one of the
    characters of "block - " loses it, which removing the literal prefix
    would not do. *)
Example Trim_is_not_prefix_removal :
  Trim "block - cab0 k" "block - " = "ab0"
  /\ stripPrefix "block - " "block - cab0 k" = Some "cab0 k".
Proof. by split. Qed.

Example TrimSpace_ascii : TrimSpace "  alice  " = "alice".
Proof. reflexivity. Qed.

Example TrimSpace_unicode :
  TrimSpace (bytes [9; 194; 160; 97; 32; 98; 226; 128; 168; 10]) = "a b".
Proof. reflexivity. Qed.

Example TrimSpace_invalid_utf8 :
  TrimSpace (bytes [160; 97; 194]) = bytes [160; 97; 194].
Proof. reflexivity. Qed.

Example Contains_examples :
  Contains "a block here" "block" = true
  /\ Contains "blo ck" "block" = false
  /\ Contains "x" "" = true.
Proof. by repeat split. Qed.

(** The scenario of the specification: a first login of a new account. *)
Example login_scenario :
  let c := step Sample.conf0 (newConn Sample.conf0)
             (Sample.loginFrame " alice " "p" "" noPassword) in
  session (vars c)
  = {| login := "alice"; agent := "NoNameMiner42"; difficulty := 1 |}
  /\ dbCalls (trace c) = [registerMiner "alice" "p" ""]
  /\ relayed (trace c) = [Sample.loginText " alice " "p" ""]
  /\ heartbeats c = 1.
Proof. by repeat split. Qed.

(** ** Further properties of the classification *)
Section ClassificationFacts.

Lemma connEncodes_app (t1 t2 : list effect) :
  connEncodes (t1 ++ t2) = connEncodes t1 ++ connEncodes t2.
Proof.
  induction t1 as [|e t1 IH]; simpl; [done|].
  destruct e; simpl; by rewrite IH.
Qed.

Lemma cancelCount_app (t1 t2 : list effect) :
  cancelCount (t1 ++ t2) = cancelCount t1 + cancelCount t2.
Proof.
  induction t1 as [|e t1 IH]; simpl; [done|].
  destruct e; simpl; by rewrite IH.
Qed.

(** [handleMethod] only logs and calls the database. *)
Lemma handleMethod_local ms res :
  relayed (handleMethod ms res) = []
  /\ connEncodes (handleMethod ms res) = []
  /\ connWrites (handleMethod ms res) = []
  /\ cancelCount (handleMethod ms res) = 0
  /\ goCount (handleMethod ms res) = 0.
Proof.
  unfold handleMethod.
  destruct (String.eqb (resMethod res) "status").
  { by destruct (String.eqb (login ms) ""). }
  destruct (String.eqb (resMethod res) "submit"); [|done].
  destruct (Error res); [done|].
  destruct (assertString (Result res)) as [detail [|]]; simpl; [|done].
  by destruct (Contains detail "block").
Qed.

Lemma pushHandler_local ms sr encodeErr res :
  relayed (pushHandler ms sr encodeErr res) = []
  /\ connEncodes (pushHandler ms sr encodeErr res) = [sr]
  /\ connWrites (pushHandler ms sr encodeErr res) = []
  /\ cancelCount (pushHandler ms sr encodeErr res) = 0.
Proof.
  destruct (handleMethod_local ms res) as (Hr & He & Hw & Hc & _).
  unfold pushHandler. simpl.
  rewrite relayed_app, connEncodes_app, connWrites_app, cancelCount_app.
  rewrite Hr, He, Hw, Hc. by destruct encodeErr.
Qed.

End ClassificationFacts.

(** X1: a status response pushed while the session's login is empty is
    forwarded to the miner and answered by a warning only: no database
    call is made. *)
Theorem status_before_login_not_recorded (conf : config) (c : conn) (sr : string)
    (encodeErr : option goError) (res : stratumResponse) :
  resMethod res = "status" -> login (session (vars c)) = "" ->
  trace (step conf c (NodePush sr encodeErr res))
  = trace c
    ++ ConnEncode sr :: logIfErr encodeErr
    ++ [Log WARNING [LStr "recv status detail before login"]].
Proof.
  intros Hm Hl. rewrite trace_push. unfold pushHandler, handleMethod.
  by rewrite Hm, Hl.
Qed.

Lemma status_before_login_not_recorded_witness :
  trace (step Sample.conf0 (newConn Sample.conf0)
           (NodePush "r" None (Sample.statusRes (JObject ∅))))
  = trace (newConn Sample.conf0)
    ++ ConnEncode "r" :: logIfErr None
    ++ [Log WARNING [LStr "recv status detail before login"]].
Proof.
  apply (status_before_login_not_recorded Sample.conf0 (newConn Sample.conf0)
           "r" None (Sample.statusRes (JObject ∅))); reflexivity.
Defined.

(** X2: a submit response with no error whose result is a string without
    "block" records exactly one share and no block hash; the share is
    recorded under the session's login as it is, empty or not. *)
Theorem submit_without_block_records_share (conf : config) (c : conn)
    (sr : string) (encodeErr : option goError) (res : stratumResponse)
    (detail : string) :
  resMethod res = "submit" -> Error res = None ->
  Result res = JString detail -> Contains detail "block" = false ->
  let ms := session (vars c) in
  dbCalls (trace (step conf c (NodePush sr encodeErr res)))
  = dbCalls (trace c) ++ [putShare (login ms) (agent ms) (difficulty ms)].
Proof.
  intros Hm He Hr Hc ms.
  rewrite trace_push, dbCalls_app, dbCalls_pushHandler, handleMethod_submit by done.
  by rewrite Hr, Hc.
Qed.

Lemma submit_without_block_records_share_witness :
  dbCalls (trace (step Sample.conf0 (newConn Sample.conf0)
                    (NodePush "r" None (Sample.submitRes (JString "ok") None))))
  = dbCalls (trace (newConn Sample.conf0)) ++ [putShare "" "" 1].
Proof.
  apply (submit_without_block_records_share Sample.conf0 (newConn Sample.conf0)
           "r" None (Sample.submitRes (JString "ok") None) "ok"); reflexivity.
Defined.

(** X3: a pushed message whose method is neither "status" nor "submit" is
    forwarded to the miner and nothing else happens, except that the error
    of the forwarding, when there is one, is logged. *)
Theorem other_method_only_forwarded (conf : config) (c : conn) (sr : string)
    (encodeErr : option goError) (res : stratumResponse) :
  resMethod res <> "status" -> resMethod res <> "submit" ->
  trace (step conf c (NodePush sr encodeErr res))
  = trace c
    ++ ConnEncode sr
       :: match encodeErr with
          | Some err => [Log ERROR [LErr err]]
          | None => []
          end.
Proof.
  intros Hs Hb. rewrite trace_push. unfold pushHandler, handleMethod.
  destruct (String.eqb_spec (resMethod res) "status"); [done|].
  destruct (String.eqb_spec (resMethod res) "submit"); [done|].
  rewrite app_nil_r. by destruct encodeErr.
Qed.

Lemma other_method_only_forwarded_witness :
  trace (step Sample.conf0 Sample.aliceConn
           (NodePush "r" (Some (OpError "broken pipe"))
              {| resID := "4"; resJsonRpc := "2.0"; resMethod := "getjobtemplate";
                 Result := JObject ∅; Error := None |}))
  = trace Sample.aliceConn
    ++ [ConnEncode "r"; Log ERROR [LErr (OpError "broken pipe")]]
  /\ trace (step Sample.conf0 Sample.aliceConn
              (NodePush "r" None
                 {| resID := "4"; resJsonRpc := "2.0"; resMethod := "getjobtemplate";
                    Result := JObject ∅; Error := None |}))
     = trace Sample.aliceConn ++ [ConnEncode "r"].
Proof.
  split.
  - apply (other_method_only_forwarded Sample.conf0 Sample.aliceConn "r"
             (Some (OpError "broken pipe"))
             {| resID := "4"; resJsonRpc := "2.0"; resMethod := "getjobtemplate";
                Result := JObject ∅; Error := None |});
      simpl; discriminate.
  - apply (other_method_only_forwarded Sample.conf0 Sample.aliceConn "r" None
             {| resID := "4"; resJsonRpc := "2.0"; resMethod := "getjobtemplate";
                Result := JObject ∅; Error := None |});
      simpl; discriminate.
Defined.

(** ** Further properties of the login flow *)
Section LoginFacts.

Context (conf : config).

Lemma handleLogin_dbCalls st jsonRaw clientReq env :
  dbCalls (snd (handleLogin conf st jsonRaw clientReq env))
  = match verdict env with
    | noPassword =>
        [registerMiner
           (TrimSpace (fst (assertString (mapIndex (Params clientReq) "login"))))
           (TrimSpace (fst (assertString (mapIndex (Params clientReq) "pass"))))
           ""]
    | _ => []
    end.
Proof.
  unfold handleLogin.
  destruct (verdict env), (requireCallStatus _ _); by simpl.
Qed.

Lemma loginAgent_nonempty clientReq env : loginAgent clientReq env <> "".
Proof.
  unfold loginAgent.
  destruct (String.eqb_spec (TrimSpace (assertString (mapIndex (Params clientReq) "agent")).1) "");
    [discriminate|done].
Qed.

End LoginFacts.

(** X4: a login request makes a database call only when [verifyMiner]
    answers [noPassword], and then exactly one: [registerMiner] with the
    trimmed login, the trimmed password and an empty contact. *)
Theorem login_registers_new_account_once (conf : config) (c : conn) (ev : event)
    (clientReq : stratumRequest) (env : frameEnv) :
  running c = true -> loginRequestOf ev = Some (clientReq, env) ->
  dbCalls (trace (step conf c ev))
  = dbCalls (trace c)
    ++ match verdict env with
       | noPassword =>
           [registerMiner
              (TrimSpace (fst (assertString (mapIndex (Params clientReq) "login"))))
              (TrimSpace (fst (assertString (mapIndex (Params clientReq) "pass"))))
              ""]
       | _ => []
       end.
Proof.
  intros Hr E. destruct ev as [d env0| |]; try discriminate.
  destruct (handleFrame_login conf (vars c) _ _ _ _ E)
    as (raw & -> & -> & _ & _ & _ & Hf).
  rewrite step_frame, Hf by done. simpl.
  rewrite dbCalls_app. simpl. by rewrite handleLogin_dbCalls.
Qed.

Lemma login_registers_new_account_once_witness :
  dbCalls (trace (step Sample.conf0 (newConn Sample.conf0)
                    (Sample.loginFrame " alice " " p " "rig" noPassword)))
  = dbCalls (trace (newConn Sample.conf0))
    ++ [registerMiner
          (TrimSpace (fst (assertString
             (mapIndex (Params (Sample.loginReq " alice " " p " "rig")) "login"))))
          (TrimSpace (fst (assertString
             (mapIndex (Params (Sample.loginReq " alice " " p " "rig")) "pass"))))
          ""].
Proof.
  apply (login_registers_new_account_once Sample.conf0 (newConn Sample.conf0)
           (Sample.loginFrame " alice " " p " "rig" noPassword)
           (Sample.loginReq " alice " " p " "rig")
           {| unmarshalled := Some (Sample.loginReq " alice " " p " "rig");
              verdict := noPassword; rand63 := 42 |});
    reflexivity.
Defined.

(** X5: after a login request the session's agent is never empty: a
    blank or missing agent is replaced by "NoNameMiner" followed by the
    random number in decimal. *)
Theorem login_agent_never_empty (conf : config) (c : conn) (ev : event)
    (clientReq : stratumRequest) (env : frameEnv) :
  running c = true -> loginRequestOf ev = Some (clientReq, env) ->
  agent (session (vars (step conf c ev))) <> ""
  /\ (TrimSpace (fst (assertString (mapIndex (Params clientReq) "agent"))) = "" ->
      agent (session (vars (step conf c ev)))
      = "NoNameMiner" +:+ FormatInt10 (rand63 env)).
Proof.
  intros Hr E. destruct ev as [d env0| |]; try discriminate.
  destruct (handleFrame_login conf (vars c) _ _ _ _ E)
    as (raw & -> & -> & _ & _ & _ & Hf).
  rewrite step_frame, Hf by done. simpl. rewrite handleLogin_session. simpl.
  split; [apply loginAgent_nonempty|].
  intros Ha. unfold loginAgent. by rewrite Ha.
Qed.

Lemma login_agent_never_empty_witness :
  agent (session (vars (step Sample.conf0 (newConn Sample.conf0)
                          (Sample.loginFrame "alice" "p" "  " correctPassword))))
  <> ""
  /\ (TrimSpace (fst (assertString
        (mapIndex (Params (Sample.loginReq "alice" "p" "  ")) "agent"))) = "" ->
      agent (session (vars (step Sample.conf0 (newConn Sample.conf0)
                              (Sample.loginFrame "alice" "p" "  " correctPassword))))
      = "NoNameMiner" +:+ FormatInt10 42).
Proof.
  apply (login_agent_never_empty Sample.conf0 (newConn Sample.conf0)
           (Sample.loginFrame "alice" "p" "  " correctPassword)
           (Sample.loginReq "alice" "p" "  ")
           {| unmarshalled := Some (Sample.loginReq "alice" "p" "  ");
              verdict := correctPassword; rand63 := 42 |});
    reflexivity.
Defined.

(** ** Facts about [TrimSpace] *)
Section TrimSpaceFacts.

Lemma append_assoc (s t u : string) : (s +:+ t) +:+ u = s +:+ (t +:+ u).
Proof.
  induction s as [|a s IH]; [done|]. by rewrite !append_cons, IH.
Qed.

Lemma append_length (s t : string) :
  String.length (s +:+ t) = String.length s + String.length t.
Proof.
  induction s as [|a s IH]; [done|]. rewrite append_cons. simpl. by rewrite IH.
Qed.

Lemma list_ascii_of_append (s t : string) :
  list_ascii_of_string (s +:+ t) = list_ascii_of_string s ++ list_ascii_of_string t.
Proof.
  induction s as [|a s IH]; [done|]. rewrite append_cons. simpl. by rewrite IH.
Qed.

Lemma revString_involutive (s : string) : revString (revString s) = s.
Proof.
  unfold revString.
  by rewrite list_ascii_of_string_of_list_ascii, rev_involutive,
    string_of_list_ascii_of_string.
Qed.

Lemma length_of_list_ascii (l : list ascii) :
  String.length (string_of_list_ascii l) = length l.
Proof. induction l as [|a l IH]; simpl; [done|]. by rewrite IH. Qed.

Lemma revString_length (s : string) : String.length (revString s) = String.length s.
Proof.
  unfold revString. rewrite length_of_list_ascii, length_rev.
  by rewrite <- length_of_list_ascii, string_of_list_ascii_of_string.
Qed.

Lemma revString_append (s t : string) :
  revString (s +:+ t) = revString t +:+ revString s.
Proof.
  unfold revString.
  by rewrite list_ascii_of_append, rev_app_distr, string_of_list_app.
Qed.

Lemma stripAny_Some (table : list string) (s r : string) :
  stripAny table s = Some r -> exists p, In p table /\ s = p +:+ r.
Proof.
  induction table as [|p table IH]; simpl; [discriminate|].
  destruct (stripPrefix p s) as [r'|] eqn:E.
  - intros [= ->]. exists p. split; [by left|]. by apply stripPrefix_Some.
  - intros H. destruct (IH H) as (p' & Hin & Hs). exists p'. by split; [right|].
Qed.

(** What starts with an entry of the table still does when extended. *)
Lemma stripAny_append (table : list string) (s t : string) :
  stripAny table s <> None -> stripAny table (s +:+ t) <> None.
Proof.
  induction table as [|p table IH]; simpl; [done|].
  destruct (stripPrefix p s) as [r|] eqn:E.
  - intros _. apply stripPrefix_Some in E. subst s.
    assert (H : stripPrefix p ((p +:+ r) +:+ t) = Some (r +:+ t)).
    { apply stripPrefix_Some. apply append_assoc. }
    by rewrite H.
  - intros H. destruct (stripPrefix p (s +:+ t)); [done|]. by apply IH.
Qed.

Lemma trimLeftAny_suffix (fuel : nat) (table : list string) (s : string) :
  exists pre, s = pre +:+ trimLeftAny fuel table s.
Proof.
  revert s. induction fuel as [|fuel IH]; intros s; simpl; [by exists ""|].
  destruct (stripAny table s) as [s'|] eqn:E; [|by exists ""].
  destruct (stripAny_Some _ _ _ E) as (p & _ & ->).
  destruct (IH s') as (pre & Hpre). exists (p +:+ pre).
  by rewrite append_assoc, <- Hpre.
Qed.

(** With fuel for every byte, the trimmed string starts with no entry. *)
Lemma trimLeftAny_done (fuel : nat) (table : list string) (s : string) :
  Forall (fun p => p <> "") table -> String.length s <= fuel ->
  stripAny table (trimLeftAny fuel table s) = None.
Proof.
  intros Hne. revert s. induction fuel as [|fuel IH]; intros s Hlen; simpl.
  - destruct s; [|simpl in Hlen; lia].
    destruct (stripAny table "") as [r|] eqn:E; [|done].
    destruct (stripAny_Some _ _ _ E) as (p & Hin & Hs).
    rewrite List.Forall_forall in Hne. destruct (Hne p Hin).
    destruct p; [done|]. rewrite append_cons in Hs. discriminate.
  - destruct (stripAny table s) as [s'|] eqn:E; [|done].
    apply IH. destruct (stripAny_Some _ _ _ E) as (p & Hin & ->).
    rewrite List.Forall_forall in Hne. specialize (Hne p Hin).
    rewrite append_length in Hlen. destruct p; [done|]. simpl in Hlen. lia.
Qed.

Lemma trimLeftAny_fix (fuel : nat) (table : list string) (s : string) :
  stripAny table s = None -> trimLeftAny fuel table s = s.
Proof. intros H. destruct fuel; simpl; [done|]. by rewrite H. Qed.

Lemma spaceEncodings_nonempty :
  Forall (fun p => p <> "") spaceEncodings
  /\ Forall (fun p => p <> "") (List.map revString spaceEncodings).
Proof.
  split; vm_compute; repeat (constructor; [discriminate|]); constructor.
Qed.

(** [TrimSpace] leaves no white space at the start. *)
Lemma TrimSpace_no_leading (s : string) :
  stripAny spaceEncodings (TrimSpace s) = None.
Proof.
  unfold TrimSpace.
  set (l := trimLeftAny (String.length s) spaceEncodings s).
  destruct (trimLeftAny_suffix (String.length l) (List.map revString spaceEncodings)
              (revString l)) as (pre & Hpre).
  set (t := trimLeftAny _ _ (revString l)) in *.
  destruct (stripAny spaceEncodings (revString t)) eqn:E; [|done].
  assert (Hl : stripAny spaceEncodings l = None).
  { apply trimLeftAny_done; [apply spaceEncodings_nonempty|done]. }
  assert (Hs : l = revString t +:+ revString pre).
  { by rewrite <- revString_append, <- Hpre, revString_involutive. }
  destruct (stripAny_append spaceEncodings (revString t) (revString pre)).
  - by rewrite E.
  - by rewrite <- Hs.
Qed.

(** [TrimSpace] leaves no white space at the end. *)
Lemma TrimSpace_no_trailing (s : string) :
  stripAny (List.map revString spaceEncodings) (revString (TrimSpace s)) = None.
Proof.
  unfold TrimSpace. rewrite revString_involutive.
  apply trimLeftAny_done; [apply spaceEncodings_nonempty|].
  by rewrite revString_length.
Qed.

(** A string with no white space at either end is left as it is. *)
Lemma TrimSpace_fix (s : string) :
  stripAny spaceEncodings s = None ->
  stripAny (List.map revString spaceEncodings) (revString s) = None ->
  TrimSpace s = s.
Proof.
  intros Hl Hr. unfold TrimSpace.
  rewrite (trimLeftAny_fix _ _ _ Hl), (trimLeftAny_fix _ _ _ Hr).
  apply revString_involutive.
Qed.

Lemma TrimSpace_idempotent (s : string) : TrimSpace (TrimSpace s) = TrimSpace s.
Proof. apply TrimSpace_fix; [apply TrimSpace_no_leading|apply TrimSpace_no_trailing]. Qed.

End TrimSpaceFacts.

(** ** Invariants of a connection *)
Section RunFacts.

Context (conf : config).

(** What every event keeps, a run keeps. *)
Lemma run_invariant (P : conn -> Prop) :
  (forall c ev, P c -> P (step conf c ev)) ->
  forall evs c, P c -> P (run conf c evs).
Proof.
  intros Hstep evs. induction evs as [|ev evs IH]; intros c Hc; [done|].
  apply IH, Hstep, Hc.
Qed.

Lemma run_app c evs1 evs2 :
  run conf c (evs1 ++ evs2) = run conf (run conf c evs1) evs2.
Proof. apply fold_left_app. Qed.

End RunFacts.

(** X6: whatever the miner sends and in whatever order, the session's
    login is always a trimmed string: it neither starts nor ends with
    white space, and trimming it changes nothing. *)
Theorem session_login_always_trimmed (conf : config) (evs : list event) :
  let l := login (session (vars (run conf (newConn conf) evs))) in
  TrimSpace l = l
  /\ stripAny spaceEncodings l = None
  /\ stripAny (List.map revString spaceEncodings) (revString l) = None.
Proof.
  simpl.
  assert (H : TrimSpace (login (session (vars (run conf (newConn conf) evs))))
              = login (session (vars (run conf (newConn conf) evs)))).
  { apply (run_invariant conf
             (fun c => TrimSpace (login (session (vars c))) = login (session (vars c))));
      [|done].
    intros c ev Hc. rewrite login_after_step.
    destruct (loginRequestOf ev) as [[req env]|]; [|done].
    destruct (running c); [|done].
    unfold committedLogin. destruct (verdict env); try apply TrimSpace_idempotent.
    reflexivity. }
  split; [done|]. rewrite <- H.
  split; [apply TrimSpace_no_leading|apply TrimSpace_no_trailing].
Qed.

(** ** What one event adds to the trace *)
Section StepFacts.

Context (conf : config).

Lemma handleLogin_local st jsonRaw clientReq env :
  connEncodes (snd (handleLogin conf st jsonRaw clientReq env)) = []
  /\ cancelCount (snd (handleLogin conf st jsonRaw clientReq env)) = 0
  /\ loginVar (fst (handleLogin conf st jsonRaw clientReq env))
     = login (session (fst (handleLogin conf st jsonRaw clientReq env))).
Proof.
  unfold handleLogin.
  destruct (verdict env), (requireCallStatus _ _); by simpl.
Qed.

Lemma handleMethod_difficulty ms res :
  Forall (carriesDifficulty (difficulty ms)) (dbCalls (handleMethod ms res)).
Proof.
  unfold handleMethod.
  destruct (String.eqb (resMethod res) "status").
  { destruct (String.eqb (login ms) ""); simpl; by repeat constructor. }
  destruct (String.eqb (resMethod res) "submit"); [|constructor].
  destruct (Error res); [constructor|].
  destruct (assertString (Result res)) as [detail [|]]; simpl; [|constructor].
  destruct (Contains detail "block"); simpl; by repeat constructor.
Qed.

(** The effects of one event, seen through each projection of the
    trace. *)
Lemma step_effects c ev :
  exists effs,
    trace (step conf c ev) = trace c ++ effs
    /\ running (step conf c ev) = running c && negb (endsLoop ev)
    /\ relayed effs = (if running c then optList (relayedFrame ev) else [])
    /\ connEncodes effs = optList (pushedMessage ev)
    /\ cancelCount effs = (if running c && endsLoop ev then 1 else 0)
    /\ Forall (carriesDifficulty (difficulty (session (vars c)))) (dbCalls effs)
    /\ difficulty (session (vars (step conf c ev))) = difficulty (session (vars c))
    /\ (loginVar (vars c) = login (session (vars c)) ->
        loginVar (vars (step conf c ev)) = login (session (vars (step conf c ev)))).
Proof.
  destruct ev as [d env|sr e res|sel].
  - destruct (running c) eqn:Hr;
      [|exists []; unfold step; rewrite Hr, app_nil_r; by repeat split].
    rewrite step_frame by done.
    destruct (loginRequestOf (MinerFrame d env)) as [[req env']|] eqn:E.
    + destruct (handleFrame_login conf (vars c) _ _ _ _ E)
        as (raw & -> & -> & Hraw & Hreq & _ & ->).
      destruct (handleLogin_effects conf (vars c) raw req env) as (_ & _ & Hrel).
      destruct (handleLogin_local (vars c) raw req env) as (Henc & Hcan & Hvar).
      eexists. split; [reflexivity|]. simpl.
      rewrite (length_nonempty _ Hraw), Hreq, Hrel, Henc, Hcan.
      rewrite handleLogin_dbCalls, handleLogin_session. simpl.
      repeat split; try done.
      * destruct (verdict env); by repeat constructor.
      * intros _. by rewrite Hvar, handleLogin_session.
    + revert E. unfold loginRequestOf, handleFrame, relayedFrame, endsLoop.
      destruct d as [raw|err].
      * destruct (Nat.eqb (String.length raw) 0).
        { intros _. exists deferred. by repeat split. }
        destruct (unmarshalled env) as [req|];
          [|intros _; exists []; rewrite app_nil_r; by repeat split].
        destruct (String.eqb (Method req) "login"); [discriminate|].
        intros _. eexists. split; [reflexivity|].
        destruct (hasNotLoggedIn (session (vars c))); by repeat split.
      * intros _. destruct err as [t|t].
        -- destruct (String.eqb t ECONNRESET_Error);
             (eexists; split; [reflexivity|]; by repeat split).
        -- eexists; split; [reflexivity|]; by repeat split.
  - exists (pushHandler (session (vars c)) sr e res).
    destruct (pushHandler_local (session (vars c)) sr e res) as (Hrel & Henc & _ & Hcan).
    rewrite Hrel, Henc, Hcan, dbCalls_pushHandler, andb_true_r, andb_false_r.
    repeat split; try done.
    + by destruct (running c).
    + apply handleMethod_difficulty.
  - simpl. rewrite andb_true_r, andb_false_r.
    destruct (heartbeats c) as [|n].
    { exists []. rewrite app_nil_r. repeat split; try done. by destruct (running c). }
    destruct sel as [e|].
    + eexists. split; [reflexivity|]. simpl.
      destruct e; simpl; repeat split; try done; by destruct (running c).
    + exists []. rewrite app_nil_r.
      destruct (running c) eqn:Hr; simpl; rewrite ?app_nil_r, ?Hr; by repeat split.
Qed.

End StepFacts.

Section RunProjections.

Context (conf : config).

Lemma endsLoop_no_frame ev : endsLoop ev = true -> relayedFrame ev = None.
Proof.
  destruct ev as [[raw|err] env| |]; simpl; try done.
  by intros ->.
Qed.

Lemma run_running c evs :
  running (run conf c evs)
  = running c && forallb (fun ev => negb (endsLoop ev)) evs.
Proof.
  revert c. induction evs as [|ev evs IH]; intros c; simpl.
  - by rewrite andb_true_r.
  - rewrite IH. destruct (step_effects conf c ev) as (_ & _ & -> & _).
    by rewrite andb_assoc.
Qed.

Lemma run_relayed c evs :
  relayed (trace (run conf c evs))
  = relayed (trace c)
    ++ (if running c then omap relayedFrame (untilReturn evs) else []).
Proof.
  revert c. induction evs as [|ev evs IH]; intros c; simpl.
  - destruct (running c); by rewrite app_nil_r.
  - rewrite IH.
    destruct (step_effects conf c ev) as (effs & -> & -> & Hrel & _).
    rewrite relayed_app, Hrel.
    destruct (running c); simpl; [|by rewrite app_nil_r].
    destruct (endsLoop ev) eqn:E; simpl.
    + rewrite (endsLoop_no_frame _ E). simpl. by rewrite !app_nil_r.
    + rewrite <- app_assoc. by destruct (relayedFrame ev).
Qed.


Lemma run_cancelCount c evs :
  cancelCount (trace (run conf c evs))
  = cancelCount (trace c)
    + (if running c && negb (running (run conf c evs)) then 1 else 0).
Proof.
  revert c. induction evs as [|ev evs IH]; intros c; simpl.
  - destruct (running c); simpl; lia.
  - rewrite IH. fold (run conf (step conf c ev) evs). rewrite !run_running.
    destruct (step_effects conf c ev) as (effs & -> & -> & _ & _ & Hcan & _).
    rewrite cancelCount_app, Hcan.
    destruct (running c), (endsLoop ev), (forallb _ evs); simpl; lia.
Qed.

End RunProjections.

(** X7: the frames relayed to the node are the frames that were read
    whole and parsed as a request, login requests included, each once and
    in the order they were read, up to the first failed read or empty
    frame; nothing is relayed after that. *)
Theorem frames_relayed_in_order (conf : config) (evs : list event) :
  relayed (trace (run conf (newConn conf) evs))
  = omap relayedFrame (untilReturn evs).
Proof. by rewrite run_relayed. Qed.


(** X9: the read loop runs until the first failed read or empty frame
    and returns there; neither a frame that does not parse nor anything
    the node pushes ends it. The scope of the connection is cancelled
    exactly once, when the loop returns, and never before. *)
Theorem scope_cancelled_exactly_once (conf : config) (evs : list event) :
  let c := run conf (newConn conf) evs in
  running c = forallb (fun ev => negb (endsLoop ev)) evs
  /\ cancelCount (trace c) = (if running c then 0 else 1).
Proof.
  simpl. split.
  - by rewrite run_running.
  - rewrite run_cancelCount. simpl.
    by destruct (running (run conf (newConn conf) evs)).
Qed.

(** X10: the difficulty of a session is the configured one for the whole
    life of the connection, and every share and every agent status is
    recorded with it. *)
Theorem difficulty_fixed (conf : config) (evs : list event) :
  let c := run conf (newConn conf) evs in
  difficulty (session (vars c)) = Diff conf
  /\ Forall (carriesDifficulty (Diff conf)) (dbCalls (trace c)).
Proof.
  apply (run_invariant conf
           (fun c => difficulty (session (vars c)) = Diff conf
                     /\ Forall (carriesDifficulty (Diff conf)) (dbCalls (trace c))));
    [|by split; [|constructor]].
  intros c ev (Hd & Hf).
  destruct (step_effects conf c ev) as (effs & -> & _ & _ & _ & _ & Hdb & -> & _).
  split; [done|]. rewrite dbCalls_app, Forall_app. split; [done|].
  by rewrite <- Hd.
Qed.

(** X11: the login variable of the read loop and the session's login are
    always equal; so the warning logged for a frame sent before login,
    which prints that variable, never names a miner. *)
Theorem login_variable_mirrors_session (conf : config) (evs : list event) :
  let c := run conf (newConn conf) evs in
  loginVar (vars c) = login (session (vars c))
  /\ (hasNotLoggedIn (session (vars c)) = true -> loginVar (vars c) = "").
Proof.
  simpl.
  assert (H : loginVar (vars (run conf (newConn conf) evs))
              = login (session (vars (run conf (newConn conf) evs)))).
  { apply (run_invariant conf
             (fun c => loginVar (vars c) = login (session (vars c)))); [|done].
    intros c ev Hc.
    destruct (step_effects conf c ev) as (_ & _ & _ & _ & _ & _ & _ & _ & Hv).
    by apply Hv. }
  split; [done|]. rewrite H. unfold hasNotLoggedIn. by intros ->%String.eqb_eq.
Qed.

Lemma login_variable_mirrors_session_witness :
  let c := run Sample.conf0 (newConn Sample.conf0)
             [Sample.loginFrame "alice" "bad" "rig" wrongPassword] in
  loginVar (vars c) = login (session (vars c))
  /\ (hasNotLoggedIn (session (vars c)) = true -> loginVar (vars c) = "").
Proof.
  apply (login_variable_mirrors_session Sample.conf0
           [Sample.loginFrame "alice" "bad" "rig" wrongPassword]).
Defined.

(** X12: a frame that is read whole but does not parse as a request is
    dropped without a trace: nothing is logged, written to the miner or
    relayed, the session is untouched and the loop goes on. *)
Theorem malformed_frame_dropped (conf : config) (c : conn) (jsonRaw : string)
    (env : frameEnv) :
  running c = true -> jsonRaw <> "" -> unmarshalled env = None ->
  step conf c (MinerFrame (Decoded jsonRaw) env) = c.
Proof.
  intros Hr Hraw Hu. rewrite step_frame by done. unfold handleFrame.
  rewrite (length_nonempty _ Hraw), Hu. destruct c as [v r h t]. simpl in *.
  subst r. f_equal; [lia|apply app_nil_r].
Qed.

Lemma malformed_frame_dropped_witness :
  step Sample.conf0 Sample.aliceConn (MinerFrame (Decoded "[1,2]") Sample.anyEnv)
  = Sample.aliceConn.
Proof.
  apply (malformed_frame_dropped Sample.conf0 Sample.aliceConn "[1,2]" Sample.anyEnv);
    [reflexivity | discriminate | reflexivity].
Defined.

Section WriteFacts.

Context (conf : config).

(** The bytes one event writes to the miner with [conn.Write]. *)
Lemma step_connWrites c ev :
  connWrites (trace (step conf c ev))
  = connWrites (trace c)
    ++ (if running c && rejectedLogin ev then [loginErrorReply] else []).
Proof.
  destruct ev as [d env|sr e res|sel].
  - destruct (running c) eqn:Hr; [|unfold step; rewrite Hr; by rewrite app_nil_r].
    rewrite step_frame by done. unfold rejectedLogin.
    destruct (loginRequestOf (MinerFrame d env)) as [[req env']|] eqn:E.
    + destruct (handleFrame_login conf (vars c) _ _ _ _ E)
        as (raw & -> & -> & _ & _ & _ & ->).
      simpl. rewrite connWrites_app. simpl. f_equal. unfold handleLogin.
      destruct (verdict env), (requireCallStatus _ _); by simpl.
    + revert E. unfold loginRequestOf, handleFrame.
      destruct d as [raw|err].
      * destruct (Nat.eqb (String.length raw) 0);
          [intros _; simpl; by rewrite !connWrites_app|].
        destruct (unmarshalled env) as [req|];
          [|intros _; simpl; by rewrite !connWrites_app].
        destruct (String.eqb (Method req) "login"); [discriminate|].
        intros _. destruct (hasNotLoggedIn (session (vars c)));
          simpl; by rewrite !connWrites_app.
      * intros _. destruct err as [t|t]; [destruct (String.eqb t ECONNRESET_Error)|];
          simpl; by rewrite !connWrites_app.
  - rewrite trace_push, connWrites_app, andb_false_r.
    by rewrite (proj1 (proj2 (proj2 (pushHandler_local _ sr e res)))).
  - simpl. rewrite andb_false_r, app_nil_r.
    destruct (heartbeats c), sel as [e|]; try done.
    + simpl. rewrite connWrites_app. destruct e; simpl; by rewrite app_nil_r.
    + by destruct (running c).
Qed.

Lemma run_connWrites c evs :
  connWrites (trace (run conf c evs))
  = connWrites (trace c)
    ++ (if running c
        then repeat loginErrorReply
               (length (List.filter rejectedLogin (untilReturn evs)))
        else []).
Proof.
  revert c. induction evs as [|ev evs IH]; intros c; simpl.
  - destruct (running c); by rewrite app_nil_r.
  - rewrite IH, step_connWrites.
    destruct (step_effects conf c ev) as (_ & _ & -> & _).
    destruct (running c); simpl; [|by rewrite !app_nil_r].
    destruct (endsLoop ev) eqn:E; simpl.
    + rewrite app_nil_r. unfold rejectedLogin.
      destruct ev as [[raw|err] env| |]; simpl in *; try done;
        rewrite ?E; by rewrite app_nil_r.
    + rewrite <- app_assoc. by destruct (rejectedLogin ev).
Qed.

End WriteFacts.

(** X13: the only bytes the relay writes to the miner on its own are the
    login error reply, once for every login request that [verifyMiner]
    rejects; whatever else reaches the miner is a forwarded push. *)
Theorem only_login_errors_written (conf : config) (evs : list event) :
  connWrites (trace (run conf (newConn conf) evs))
  = repeat loginErrorReply (length (List.filter rejectedLogin (untilReturn evs))).
Proof. by rewrite run_connWrites. Qed.

Section OmitFacts.

(** The loop over the omit entries, in terms of substrings. *)
Lemma requireCallStatus_substring (agent1 : string) (omit : list string) :
  requireCallStatus agent1 omit = false
  <-> exists omitSubstr pre post,
        In omitSubstr omit /\ agent1 = pre +:+ omitSubstr +:+ post.
Proof.
  rewrite requireCallStatus_false. split.
  - intros (o & Hin & Hc). apply Contains_spec in Hc as (pre & post & ->).
    by exists o, pre, post.
  - intros (o & pre & post & Hin & ->). exists o. split; [done|].
    apply Contains_spec. by exists pre, post.
Qed.

Lemma requireCallStatus_empty_entry (agent1 : string) (omit : list string) :
  In "" omit -> requireCallStatus agent1 omit = false.
Proof.
  intros Hin. apply requireCallStatus_substring. by exists "", "", agent1.
Qed.

End OmitFacts.

(** X14: a login starts no heartbeat task exactly when one of the
    configured omit entries occurs in its agent as a run of consecutive
    bytes, compared exactly; an empty entry occurs in every agent. *)
Theorem heartbeat_suppressed_iff_substring (agent1 : string) (omit : list string) :
  (requireCallStatus agent1 omit = false
   <-> exists omitSubstr pre post,
         In omitSubstr omit /\ agent1 = pre +:+ omitSubstr +:+ post)
  /\ (In "" omit -> requireCallStatus agent1 omit = false).
Proof.
  split; [apply requireCallStatus_substring|apply requireCallStatus_empty_entry].
Qed.

Lemma heartbeat_suppressed_iff_substring_witness :
  requireCallStatus "my-omit-rig" ["x"; "omit"] = false.
Proof.
  apply (proj1 (heartbeat_suppressed_iff_substring "my-omit-rig" ["x"; "omit"])).
  exists "omit", "my-", "-rig". split; [right; by left|reflexivity].
Defined.

(** X15: with an empty string among the configured omit entries no
    connection ever starts a heartbeat task or sends a status request,
    whatever agents log in. *)
Theorem empty_omit_entry_disables_heartbeat (conf : config) (evs : list event) :
  In "" (OmitAgentStatus conf) ->
  heartbeats (run conf (newConn conf) evs) = 0
  /\ statusSends (trace (run conf (newConn conf) evs)) = [].
Proof.
  intros Hin. apply (no_task_no_status conf (newConn conf) evs); [done|].
  apply List.Forall_forall. intros ev _. simpl. unfold startsHeartbeat.
  destruct (loginRequestOf ev) as [[req env]|]; [|done].
  by apply requireCallStatus_empty_entry.
Qed.

Lemma empty_omit_entry_disables_heartbeat_witness :
  heartbeats (run {| OmitAgentStatus := ["omit"; ""]; Diff := 1 |}
                (newConn {| OmitAgentStatus := ["omit"; ""]; Diff := 1 |})
                [Sample.loginFrame "alice" "p" "rig" correctPassword;
                 Heartbeat (Tick None)])
  = 0
  /\ statusSends
       (trace (run {| OmitAgentStatus := ["omit"; ""]; Diff := 1 |}
                 (newConn {| OmitAgentStatus := ["omit"; ""]; Diff := 1 |})
                 [Sample.loginFrame "alice" "p" "rig" correctPassword;
                  Heartbeat (Tick None)]))
     = [].
Proof.
  apply (empty_omit_entry_disables_heartbeat
           {| OmitAgentStatus := ["omit"; ""]; Diff := 1 |}
           [Sample.loginFrame "alice" "p" "rig" correctPassword;
            Heartbeat (Tick None)]).
  simpl. right. by left.
Defined.
